(** * Stock news analyzer: a shallow embedding of [main.py]

    The development follows the class [StockNewsAnalyzer] ([fetch_news],
    [generate_summary]) and the analysis branch of [main].

    Modelling decisions.
    - A NewsAPI article is a JSON object; every field the program reads is
      either absent (the default of [.get] applies) or a string.
    - The outcome of one pass through the [try] block of [fetch_news] is a
      [Response]: something raised before an article was looked at
      ([requests.get], [response.json()]), or there is a body with a
      [status] and an [articles] entry.  The news provider answers the
      i-th request of a fetch.
    - Python floats are IEEE binary64 numbers: they are Rocq's primitive
      floats, with the same literals ([0.1], [1.5], [100]) and the same
      comparisons; a format [.1f] or [.2f] is the exact value of the float
      rounded to that many decimals, ties to even.
    - Text is a [string] of bytes; [str.lower] is the ASCII lowering.
    - The sentiment scorer (TextBlob) and the company name (yfinance) are
      parameters.
    - An uncaught Python exception is the [Raises] outcome.
    - The text of the summary is the list of its lines, one constructor of
      [Line] per kind of line. *)

From Stdlib Require Import ZArith List Floats Ascii String.
From stdpp Require Import base gmap sets list strings.

Local Open Scope string_scope.
Local Open Scope list_scope.

(** ** Data model *)

Record Article := mkArticle {
  title : option string;
  description : option string;
  url : option string;
  publishedAt : option string
}.

(** [d.get(key, default)] on a field that is absent or a string. *)
Definition get (field : option string) (default : string) : string :=
  match field with
  | Some v => v
  | None => default
  end.

(** Truth value of a Python [str]: every non-empty string is true. *)
Definition truthy (s : string) : bool :=
  match s with
  | EmptyString => false
  | String _ _ => true
  end.

(** What one request of the ladder comes to: an exception inside the [try]
    block, or the decoded body of the response. *)
Inductive Response :=
| RequestRaised
| Body (status : option string) (articles : option (list Article)).

Record Analyzer := mkAnalyzer {
  ticker : string;
  news_api_key : string;
  stock_data : option (list float);
  news_articles : list Article
}.

Definition NEWS_API_KEY : string := "6b4efd22e1b4433488adb20e81814840".

(** [StockNewsAnalyzer.__init__] *)
Definition init (ticker news_api_key : string) : Analyzer :=
  {| ticker := ticker; news_api_key := news_api_key;
     stock_data := None; news_articles := [] |}.

(** [fetch_stock_data]: the closes of the history that yfinance returned. *)
Definition fetch_stock_data (an : Analyzer) (history : list float) : Analyzer :=
  {| ticker := ticker an; news_api_key := news_api_key an;
     stock_data := Some history; news_articles := news_articles an |}.

(** ** [fetch_news] *)

Module Fetch.

Record State := mkState {
  all_articles : list Article;
  seen_urls : gset string
}.

Definition start : State := {| all_articles := []; seen_urls := ∅ |}.

(** [article_url and article_url not in seen_urls] *)
Definition admissible (seen : gset string) (article : Article) : bool :=
  let article_url := get (url article) "" in
  truthy article_url && bool_decide (article_url ∉ seen).

(** The inner loop [for article in articles], with its [break]. *)
Fixpoint for_article (articles : list Article) (st : State) : State :=
  match articles with
  | [] => st
  | article :: rest =>
      let article_url := get (url article) "" in
      if admissible (seen_urls st) article then
        let st' := {| all_articles := all_articles st ++ [article];
                      seen_urls := {[article_url]} ∪ seen_urls st |} in
        if (20 <=? length (all_articles st'))%nat then st'
        else for_article rest st'
      else for_article rest st
  end.

(** [news_data.get('articles', [])] *)
Definition get_articles (articles : option (list Article)) : list Article :=
  match articles with
  | Some l => l
  | None => []
  end.

(** The body of the [try] for one response; [except: continue] leaves the
    state as it is. *)
Definition try_query (r : Response) (st : State) : State :=
  match r with
  | RequestRaised => st
  | Body status articles =>
      if bool_decide (status = Some "ok")
      then for_article (get_articles articles) st
      else st
  end.

(** The outer loop [for query in search_queries], with its [break]. *)
Fixpoint for_query (responses : list Response) (st : State) : State :=
  match responses with
  | [] => st
  | r :: rest =>
      if (20 <=? length (all_articles st))%nat then st
      else for_query rest (try_query r st)
  end.

End Fetch.

(** [str.replace(old, new)] for a non-empty [old]: every occurrence, left to
    right, without overlap.  [skip] counts the characters of a matched
    occurrence that are still to be dropped. *)
Fixpoint replace_from (old new s : string) (skip : nat) : string :=
  match s with
  | EmptyString => EmptyString
  | String c s' =>
      match skip with
      | S k => replace_from old new s' k
      | O =>
          if String.prefix old s
          then new +:+ replace_from old new s' (String.length old - 1)
          else String c (replace_from old new s' 0)
      end
  end.

Definition replace (old new s : string) : string := replace_from old new s 0.

(** The fixed ladder of five queries, from the narrowest to the broadest. *)
Definition search_queries (company_name ticker_short : string) : list string :=
  [ "(" +:+ company_name +:+ " OR " +:+ ticker_short +:+
      ") AND (stock OR share OR market)";
    company_name +:+ " stock";
    ticker_short +:+ " share market";
    company_name;
    ticker_short ].

(** The news provider: the outcome of the [i]-th request of a fetch, made
    for the query [q]. *)
Definition NewsSource := nat → string → Response.

(** What the ladder's requests return, in ladder order.  [fetch_news]
    issues a request only when its loop reaches it; the outcomes of the
    requests that are never issued are never looked at. *)
Definition responses (requests_get : NewsSource) (queries : list string) : list Response :=
  imap requests_get queries.

Definition set_news_articles (an : Analyzer) (l : list Article) : Analyzer :=
  {| ticker := ticker an; news_api_key := news_api_key an;
     stock_data := stock_data an; news_articles := l |}.

(** The responses to the ladder of this analyzer. *)
Definition ladder (an : Analyzer) (company_name : string)
    (requests_get : NewsSource) : list Response :=
  let ticker_short := replace ".NS" "" (ticker an) in
  responses requests_get (search_queries company_name ticker_short).

(** [all_articles] when the loop over the queries is left. *)
Definition collect (an : Analyzer) (company_name : string)
    (requests_get : NewsSource) : list Article :=
  Fetch.all_articles
    (Fetch.for_query (ladder an company_name requests_get) Fetch.start).

(** [fetch_news]; [company_name] is what [get_company_name] returned. *)
Definition fetch_news (an : Analyzer) (company_name : string)
    (requests_get : NewsSource) : bool * Analyzer :=
  let all_articles := collect an company_name requests_get in
  if (20 <=? length all_articles)%nat then
    (true, set_news_articles an (take 20 all_articles))
  else if (0 <? length all_articles)%nat then
    (true, set_news_articles an all_articles)
  else
    (false, an).

(** *** The aggregate in the words of the specification *)

(** The batch of articles a response hands over: those of an "ok" body,
    none for a failed request or another status. *)
Definition batch (r : Response) : list Article :=
  match r with
  | RequestRaised => []
  | Body status articles =>
      if bool_decide (status = Some "ok") then Fetch.get_articles articles else []
  end.

Definition url_of (a : Article) : string := get (url a) "".

(** First occurrence of each url, in first-seen order: the head is kept and
    every later article with the head's url is dropped. *)
Fixpoint first_seen (l : list Article) : list Article :=
  match l with
  | [] => []
  | a :: l' => a :: filter (λ b, url_of b ≠ url_of a) (first_seen l')
  end.

(** The aggregate as the specification words it. *)
Definition aggregate_spec (batches : list (list Article)) : list Article :=
  take 20 (first_seen (concat batches)).

Definition has_url (a : Article) : Prop := url_of a ≠ "".

(** The aggregate restricted to the articles that carry a url. *)
Definition aggregate (batches : list (list Article)) : list Article :=
  take 20 (first_seen (filter has_url (concat batches))).

(** The articles the inner loop admits from [l] when it never breaks. *)
Fixpoint accepted (seen : gset string) (l : list Article) : list Article :=
  match l with
  | [] => []
  | a :: l' =>
      if Fetch.admissible seen a
      then a :: accepted ({[url_of a]} ∪ seen) l'
      else accepted seen l'
  end.

Definition urls (l : list Article) : gset string := list_to_set (url_of <$> l).

(** ** Exceptions *)

Inductive exn := ZeroDivisionError | TypeError | IndexError.

Inductive outcome (A : Type) :=
| Returns (a : A)
| Raises (e : exn).
Arguments Returns {A} a.
Arguments Raises {A} e.

Definition bind {A B} (m : outcome A) (k : A → outcome B) : outcome B :=
  match m with
  | Returns a => k a
  | Raises e => Raises e
  end.

Notation "x ←! m ; k" := (bind m (λ x, k))
  (at level 100, m at next level, right associativity, only parsing).

(** ** Numbers *)

(** A Python [int] used as a [float]; exact below 2^53, and the counts of
    this program never exceed the number of articles. *)
Definition float_of_int (n : nat) : float :=
  PrimFloat.of_uint63 (Uint63.of_Z (Z.of_nat n)).

(** [a / b] on two [int]: true division. *)
Definition true_div (a b : nat) : outcome float :=
  match b with
  | O => Raises ZeroDivisionError
  | S _ => Returns (float_of_int a / float_of_int b)%float
  end.

(** Nearest integer to [num / den], ties to even, for [0 ≤ num], [0 < den]. *)
Definition round_half_even (num den : Z) : Z :=
  let q := (num / den)%Z in
  let r := (num mod den)%Z in
  match (2 * r ?= den)%Z with
  | Lt => q
  | Gt => (q + 1)%Z
  | Eq => if Z.even q then q else (q + 1)%Z
  end.

(** The number a format [.{digits}f] prints, as the integer [N] for the
    decimal [N / 10^digits]: the exact value of the float, rounded to
    [digits] decimals, ties to even.  Infinities and NaN print no number. *)
Definition fixed (digits : nat) (x : float) : option Z :=
  match Prim2SF x with
  | S754_zero _ => Some 0%Z
  | S754_finite s m e =>
      let scaled := (Z.pos m * 10 ^ Z.of_nat digits)%Z in
      let magnitude :=
        if (0 <=? e)%Z then (scaled * 2 ^ e)%Z
        else round_half_even scaled (2 ^ (- e)) in
      Some (if s then (- magnitude)%Z else magnitude)
  | S754_infinity _ => None
  | S754_nan => None
  end.

(** ** Sentiment *)

Inductive SentimentBucket := Positive | Negative | Neutral.

(** The thresholds [> 0.1] and [< -0.1]; the literal [0.1] is the double
    [0x1.999999999999ap-4]. *)
Definition classify (sentiment : float) : SentimentBucket :=
  if (0x1.999999999999ap-4 <? sentiment)%float then Positive
  else if (sentiment <? - 0x1.999999999999ap-4)%float then Negative
  else Neutral.

#[global] Instance SentimentBucket_eq_dec : EqDecision SentimentBucket.
Proof. solve_decision. Defined.

Record Counts := mkCounts {
  positive_count : nat;
  negative_count : nat;
  neutral_count : nat
}.

Definition tally (c : Counts) (b : SentimentBucket) : Counts :=
  match b with
  | Positive => mkCounts (positive_count c + 1) (negative_count c) (neutral_count c)
  | Negative => mkCounts (positive_count c) (negative_count c + 1) (neutral_count c)
  | Neutral => mkCounts (positive_count c) (negative_count c) (neutral_count c + 1)
  end.

Inductive Overall := PredominantlyPositive | PredominantlyNegative | Mixed.

(** [if positive_count > negative_count: ... elif negative_count >
    positive_count: ... else: ...] *)
Definition overall_sentiment (c : Counts) : Overall :=
  if (negative_count c <? positive_count c)%nat then PredominantlyPositive
  else if (positive_count c <? negative_count c)%nat then PredominantlyNegative
  else Mixed.

Inductive Closing := StronglyPositive | Concerning | Balanced.

(** [if positive_count > negative_count * 1.5: ... elif negative_count >
    positive_count * 1.5: ... else: ...] *)
Definition conclusion (c : Counts) : Closing :=
  if (float_of_int (negative_count c) * 1.5 <? float_of_int (positive_count c))%float
  then StronglyPositive
  else if (float_of_int (positive_count c) * 1.5 <? float_of_int (negative_count c))%float
  then Concerning
  else Balanced.

#[global] Instance Overall_eq_dec : EqDecision Overall.
Proof. solve_decision. Defined.

#[global] Instance Closing_eq_dec : EqDecision Closing.
Proof. solve_decision. Defined.

(** The closing statement of each wording. *)
Definition conclusion_text (company_name : string) (c : Closing) : string :=
  match c with
  | StronglyPositive =>
      "The news coverage for " +:+ company_name +:+
      " is strongly positive, suggesting favorable market sentiment and potential growth opportunities. Investors appear optimistic about the company's prospects."
  | Concerning =>
      "The news coverage for " +:+ company_name +:+
      " shows concerning trends with predominantly negative sentiment. Investors should exercise caution and monitor developments closely."
  | Balanced =>
      "The news coverage for " +:+ company_name +:+
      " presents a balanced view with mixed sentiment. The company faces both opportunities and challenges, requiring careful analysis by investors."
  end.

(** [overall_sentiment.title()] *)
Definition overall_text (o : Overall) : string :=
  match o with
  | PredominantlyPositive => "Predominantly Positive"
  | PredominantlyNegative => "Predominantly Negative"
  | Mixed => "Mixed"
  end.

(** ** Text *)

(** [str.lower] on ASCII text: [A]-[Z] become [a]-[z]. *)
Definition lower_ascii (c : ascii) : ascii :=
  let n := nat_of_ascii c in
  if (65 <=? n)%nat && (n <=? 90)%nat then ascii_of_nat (n + 32) else c.

Fixpoint lower (s : string) : string :=
  match s with
  | EmptyString => EmptyString
  | String c s' => String (lower_ascii c) (lower s')
  end.

(** [needle in hay] on two [str]: [needle] starts at some position of
    [hay]. *)
Fixpoint contains (needle hay : string) : bool :=
  String.prefix needle hay ||
  match hay with
  | EmptyString => false
  | String _ hay' => contains needle hay'
  end.

(** [s[:n]] *)
Definition str_take (n : nat) (s : string) : string := String.substring 0 n s.

(** The fixed table of topics and their keywords, in the order of the
    dict. *)
Definition keywords : list (string * list string) :=
  [ ("earnings", ["earnings"; "profit"; "revenue"; "quarter"; "results"]);
    ("growth", ["growth"; "expansion"; "increase"; "rise"; "surge"]);
    ("challenges", ["fall"; "drop"; "decline"; "loss"; "challenge"]);
    ("innovation", ["launch"; "innovation"; "technology"; "digital"; "AI"]);
    ("market", ["market"; "stock"; "share"; "investor"; "trading"]);
    ("regulatory", ["regulatory"; "compliance"; "government"; "policy"]);
    ("partnership", ["partnership"; "deal"; "agreement"; "collaboration"]) ].

(** [any(keyword.lower() in title.lower() or keyword.lower() in
    description.lower() for keyword in keywords_list)] *)
Definition mentions (keywords_list : list string) (article : Article) : bool :=
  existsb
    (λ keyword,
       contains (lower keyword) (lower (get (title article) "")) ||
       contains (lower keyword) (lower (get (description article) "")))
    keywords_list.

(** [sum(1 for article in articles if ...)] *)
Fixpoint topic_count (keywords_list : list string) (articles : list Article) : nat :=
  match articles with
  | [] => 0
  | article :: rest =>
      if mentions keywords_list article
      then 1 + topic_count keywords_list rest
      else topic_count keywords_list rest
  end.

(** The count of every topic of the table, in table order. *)
Definition topic_tally (articles : list Article) : list (string * nat) :=
  map (λ '(topic, keywords_list), (topic, topic_count keywords_list articles))
    keywords.

(** ** The summary *)

(** The lines of the summary, one constructor per kind of line that
    [summary_lines] receives. *)
Inductive Line :=
| Header (company_name ticker : string)
| AnalysisPeriod (total_articles : nat)
| OverallSentiment (o : Overall)
| BreakdownHeading
| PositiveArticles (count : nat) (percent : float)
| NegativeArticles (count : nat) (percent : float)
| NeutralArticles (count : nat) (percent : float)
| TopicsHeading
| TopicMentions (topic : string) (count : nat)
| GeneralUpdates
| HighlightsHeading
| Highlight (i : nat) (date title : string)
| MarketContextHeading
| CurrentPrice (current_price : float)
| RecentChange (price_change : float)
| ConclusionHeading
| Conclusion (c : Closing) (company_name : string).

(** What [generate_summary] returns: the message for an analyzer without
    articles, or the joined lines. *)
Inductive Summary :=
| NoArticles
| Report (summary_lines : list Line).

Definition no_articles_text : string := "No news articles available for summary.".

(** [if count > 0: topics_mentioned.append(...)], then
    [topics_mentioned if topics_mentioned else [generic line]]. *)
Definition topic_lines (articles : list Article) : list Line :=
  let topics_mentioned :=
    flat_map (λ '(topic, count),
                if (0 <? count)%nat then [TopicMentions topic count] else [])
      (topic_tally articles) in
  match topics_mentioned with
  | [] => [GeneralUpdates]
  | _ => topics_mentioned
  end.

(** [for i, article in enumerate(self.news_articles[:5], 1)] *)
Definition highlight_lines (articles : list Article) : list Line :=
  imap (λ i article,
          Highlight (i + 1)
            (str_take 10 (get (publishedAt article) ""))
            (get (title article) "No title"))
    (take 5 articles).

(** [series.iloc[-k]] for [k ≥ 1]. *)
Definition iloc_back (closes : list float) (k : nat) : outcome float :=
  if (length closes <? k)%nat then Raises IndexError
  else match closes !! (length closes - k)%nat with
       | Some x => Returns x
       | None => Raises IndexError
       end.

(** [((current_price - prev_price) / prev_price) * 100] *)
Definition price_change (current_price prev_price : float) : float :=
  ((current_price - prev_price) / prev_price * 100)%float.

(** The lines after the market-context heading; [len(None)] raises. *)
Definition market_context_lines (stock_data : option (list float)) : outcome (list Line) :=
  match stock_data with
  | None => Raises TypeError
  | Some closes =>
      if (1 <? length closes)%nat then
        current_price ←! iloc_back closes 1;
        prev_price ←! iloc_back closes 2;
        Returns [CurrentPrice current_price;
                 RecentChange (price_change current_price prev_price)]
      else Returns []
  end.

(** [count / total_articles * 100] *)
Definition percent (count total_articles : nat) : outcome float :=
  ratio ←! true_div count total_articles;
  Returns (ratio * 100)%float.

(** The lines in the order [generate_summary] appends them, given the
    counts, the three percentages and the market-context lines. *)
Definition summary_lines (company_name ticker : string) (articles : list Article)
    (c : Counts) (positive_percent negative_percent neutral_percent : float)
    (market : list Line) : list Line :=
  [ Header company_name ticker;
    AnalysisPeriod (length articles);
    OverallSentiment (overall_sentiment c);
    BreakdownHeading;
    PositiveArticles (positive_count c) positive_percent;
    NegativeArticles (negative_count c) negative_percent;
    NeutralArticles (neutral_count c) neutral_percent;
    TopicsHeading ]
  ++ topic_lines articles
  ++ [ HighlightsHeading ]
  ++ highlight_lines articles
  ++ [ MarketContextHeading ]
  ++ market
  ++ [ ConclusionHeading; Conclusion (conclusion c) company_name ].

(** ** The analysis, for a given sentiment scorer *)

Section Analysis.

(** [TextBlob(text).sentiment.polarity] *)
Variable polarity : string → float.

(** The text [generate_summary] scores: [f"{title}. {description}"]. *)
Definition summary_text (article : Article) : string :=
  get (title article) "" +:+ ". " +:+ get (description article) "".

(** The text [main] scores: [f"{title} {description}"]. *)
Definition display_text (article : Article) : string :=
  get (title article) "" +:+ " " +:+ get (description article) "".

(** The bucket an article is counted in by [generate_summary]. *)
Definition summary_bucket (article : Article) : SentimentBucket :=
  classify (polarity (summary_text article)).

(** The label [main] shows in the expander of an article. *)
Definition sent_label (article : Article) : SentimentBucket :=
  classify (polarity (display_text article)).

(** The loop [for article in self.news_articles] of [generate_summary]. *)
Fixpoint count_sentiment (articles : list Article) (c : Counts) : Counts :=
  match articles with
  | [] => c
  | article :: rest =>
      let text := summary_text article in
      let sentiment := polarity text in
      count_sentiment rest (tally c (classify sentiment))
  end.

(** [generate_summary]; [company_name] is what [get_company_name]
    returned. *)
Definition generate_summary (an : Analyzer) (company_name : string) : outcome Summary :=
  match news_articles an with
  | [] => Returns NoArticles
  | _ :: _ =>
      let c := count_sentiment (news_articles an) (mkCounts 0 0 0) in
      let total_articles := length (news_articles an) in
      positive_percent ←! percent (positive_count c) total_articles;
      negative_percent ←! percent (negative_count c) total_articles;
      neutral_percent ←! percent (neutral_count c) total_articles;
      market ←! market_context_lines (stock_data an);
      Returns (Report
        (summary_lines company_name (ticker an) (news_articles an) c
           positive_percent negative_percent neutral_percent market))
  end.

(** [sum(sentiments) / len(sentiments) if sentiments else 0] *)
Definition avg_sentiment (sentiments : list float) : float :=
  match sentiments with
  | [] => 0%float
  | _ :: _ =>
      (fold_left PrimFloat.add sentiments 0 / float_of_int (length sentiments))%float
  end.

(** What one press of the button shows: the stop for lack of news, the
    summary with the bucket of the average sentiment and the label of each
    article, or the error tip of the outer [except].  The price metrics
    and the other fields of the expanders are left out. *)
Inductive Screen :=
| CannotProceed
| Analysis (summary : Summary) (average : SentimentBucket)
    (labels : list SentimentBucket)
| ErrorTip (e : exn).

(** The branch [if analyze_button] of [main]: [history] is what yfinance
    returned and [requests_get] what NewsAPI returns. *)
Definition analyze (ticker company_name : string) (history : list float)
    (requests_get : NewsSource) : Screen :=
  let analyzer := init ticker NEWS_API_KEY in
  let analyzer := fetch_stock_data analyzer history in
  let '(news_fetched, analyzer) := fetch_news analyzer company_name requests_get in
  if negb news_fetched then CannotProceed
  else
    match generate_summary analyzer company_name with
    | Raises e => ErrorTip e
    | Returns summary =>
        let sentiments :=
          map (λ article, polarity (display_text article)) (news_articles analyzer) in
        Analysis summary (classify (avg_sentiment sentiments))
          (map sent_label (news_articles analyzer))
    end.

End Analysis.

(** ** The rules in the words of the specification *)

(** The strict ratio rule in exact arithmetic: [p > n × 1.5] is
    [2 p > 3 n]. *)
Definition ratio_rule (p n : nat) : Closing :=
  if (3 * n <? 2 * p)%nat then StronglyPositive
  else if (3 * p <? 2 * n)%nat then Concerning
  else Balanced.

(** Simple majority of the two counts. *)
Definition majority (p n : nat) : Overall :=
  match Nat.compare p n with
  | Gt => PredominantlyPositive
  | Lt => PredominantlyNegative
  | Eq => Mixed
  end.




(** ** Checks by enumeration of the counts up to the cap *)

(** The percentage a breakdown line shows, in tenths. *)
Definition reported_percent (count total_articles : nat) : option Z :=
  match percent count total_articles with
  | Returns x => fixed 1 x
  | Raises _ => None
  end.

Definition percent_law (p n u : nat) : bool :=
  let total := (p + n + u)%nat in
  match reported_percent p total, reported_percent n total,
        reported_percent u total with
  | Some a, Some b, Some d =>
      (999 <=? a + b + d)%Z && (a + b + d <=? 1001)%Z
  | _, _, _ => false
  end.

Definition percent_law_upto (cap : nat) : bool :=
  forallb (λ p,
    forallb (λ n,
      forallb (λ u, (p + n + u =? 0)%nat || percent_law p n u)
        (seq 0 (S cap - p - n)))
      (seq 0 (S cap - p)))
    (seq 0 (S cap)).

Definition ratio_rule_upto (cap : nat) : bool :=
  forallb (λ p,
    forallb (λ n,
      bool_decide (conclusion (mkCounts p n 0) = ratio_rule p n))
      (seq 0 (S cap)))
    (seq 0 (S cap)).

(** ** Failed queries and url-less articles *)

(** A query fails when its request raises or its status is not "ok". *)
Definition failed (r : Response) : Prop :=
  match r with
  | RequestRaised => True
  | Body status _ => status ≠ Some "ok"
  end.

(** The response with the articles that carry no url taken out. *)
Definition without_urlless (r : Response) : Response :=
  match r with
  | RequestRaised => RequestRaised
  | Body status articles =>
      Body status (Some (filter has_url (Fetch.get_articles articles)))
  end.

(** ** Sample inputs *)

Module Sample.

(** An article whose url is the empty string. *)
Definition urlless : Article :=
  mkArticle (Some "Quarterly results") (Some "Revenue up") (Some "") None.

Definition every_query_urlless : NewsSource :=
  λ _ _, Body (Some "ok") (Some [urlless]).

Definition first_query_urlless : NewsSource :=
  λ i _, match i with
         | O => Body (Some "ok") (Some [urlless])
         | S _ => RequestRaised
         end.

Definition every_query_raises : NewsSource := λ _ _, RequestRaised.

Definition tcs : Analyzer := fetch_stock_data (init "TCS.NS" NEWS_API_KEY) [].

(** A scorer that looks for two words only. *)
Definition word_polarity (text : string) : float :=
  if contains "surge" (lower text) then 0.5%float
  else if contains "slump" (lower text) then (-0.5)%float
  else 0%float.

(** A scorer for which a full stop ends the reach of a negation: "not"
    directly before "good" turns the score around. *)
Definition negation_polarity (text : string) : float :=
  if contains "not good" (lower text) then (- 0x1.6666666666666p-2)%float
  else if contains "good" (lower text) then 0x1.6666666666666p-1%float
  else 0%float.

Definition article (title url : string) : Article :=
  mkArticle (Some title) (Some "Shares in focus") (Some url) (Some "2025-01-15T09:30:00Z").

(** Four articles that score positive and three that score negative. *)
Definition seven : list Article :=
  [ article "Profit surge at TCS" "https://news.example/1";
    article "Orders surge" "https://news.example/2";
    article "Shares slump" "https://news.example/3";
    article "Exports surge" "https://news.example/4";
    article "Margins slump" "https://news.example/5";
    article "Hiring surge" "https://news.example/6";
    article "Demand slump" "https://news.example/7" ].

(** The first query fails, the second returns the seven articles, the
    later ones return them again. *)
Definition seven_source : NewsSource :=
  λ i _, match i with
         | O => RequestRaised
         | S _ => Body (Some "ok") (Some seven)
         end.

(** The analyzer after the price history [100, 105] and the fetch. *)
Definition tcs_seven : Analyzer :=
  (fetch_news (fetch_stock_data (init "TCS.NS" NEWS_API_KEY) [100; 105]%float)
     "TCS" seven_source).2.

(** [k] articles with the given title and urls of their own. *)
Definition numbered (tag title : string) (k : nat) : list Article :=
  map (λ i, article title ("https://news.example/" +:+ tag +:+ "/" +:+
                           String.concat "" (repeat "i" i)))
    (seq 0 k).

(** [p] articles that score positive, [n] negative and [u] neutral under
    [word_polarity]. *)
Definition mixed (p n u : nat) : list Article :=
  numbered "up" "Orders surge" p ++ numbered "down" "Margins slump" n ++
  numbered "flat" "Board meets" u.

(** The analyzer after the price history [100, 105] and a fetch whose
    first query returns the given articles. *)
Definition fetched (articles : list Article) : Analyzer :=
  (fetch_news (fetch_stock_data (init "TCS.NS" NEWS_API_KEY) [100; 105]%float)
     "TCS"
     (λ i _, match i with
             | O => Body (Some "ok") (Some articles)
             | S _ => RequestRaised
             end)).2.

(** The lines of a summary, none when there is no report. *)
Definition lines_of (o : outcome Summary) : list Line :=
  match o with
  | Returns (Report summary_lines) => summary_lines
  | _ => []
  end.

Definition not_good : Article :=
  mkArticle (Some "Not") (Some "good") (Some "https://news.example/8") None.

End Sample.

(** ** The company name *)

(** Sector-wise stocks. *)
Definition SECTORS : list (string * list string) :=
  [ ("Information Technology (IT) & Services",
     ["TCS.NS"; "INFY.NS"; "HCLTECH.NS"; "WIPRO.NS"; "TECHM.NS"]);
    ("Banking & Financial Services",
     ["HDFCBANK.NS"; "ICICIBANK.NS"; "SBIN.NS"; "KOTAKBANK.NS";
      "AXISBANK.NS"; "BAJFINANCE.NS"; "HDFCLIFE.NS"; "ICICIPRULI.NS"]);
    ("Conglomerates & Industrial",
     ["RELIANCE.NS"; "LT.NS"; "TATAMOTORS.NS"; "TATASTEEL.NS"; "M&M.NS"]);
    ("Consumer Goods & Telecom",
     ["ITC.NS"; "HINDUNILVR.NS"; "BRITANNIA.NS"; "BHARTIARTL.NS"; "MARUTI.NS"]);
    ("Energy & Commodities",
     ["ONGC.NS"; "NTPC.NS"; "COALINDIA.NS"; "HINDALCO.NS"; "JSWSTEEL.NS"]) ].

(** [str.isspace] on one ASCII character: the space, [\t] to [\r], and the
    separators [\x1c] to [\x1f]. *)
Definition is_space (c : ascii) : bool :=
  let n := nat_of_ascii c in
  (n =? 32)%nat || ((9 <=? n)%nat && (n <=? 13)%nat) ||
  ((28 <=? n)%nat && (n <=? 31)%nat).

(** [str.lstrip()] *)
Fixpoint lstrip (s : string) : string :=
  match s with
  | EmptyString => EmptyString
  | String c s' => if is_space c then lstrip s' else s
  end.

(** [str.rstrip()] *)
Fixpoint rstrip (s : string) : string :=
  match s with
  | EmptyString => EmptyString
  | String c s' =>
      match rstrip s' with
      | EmptyString => if is_space c then EmptyString else String c EmptyString
      | String _ _ as r => String c r
      end
  end.

(** [str.strip()] *)
Definition strip (s : string) : string := lstrip (rstrip s).

(** [get_company_name]: [info] is what [yf.Ticker(self.ticker).info] comes
    to, an exception or the dict with its ['longName'] entry when it has
    one.  The bare [except] returns the short ticker as it is. *)
Definition get_company_name (ticker : string) (info : outcome (option string)) : string :=
  match info with
  | Raises _ => replace ".NS" "" ticker
  | Returns longName =>
      let company_name := get longName (replace ".NS" "" ticker) in
      strip (replace "Ltd" "" (replace "Limited" "" company_name))
  end.

(** Every character of the string is a whitespace. *)
Fixpoint all_space (s : string) : bool :=
  match s with
  | EmptyString => true
  | String c s' => is_space c && all_space s'
  end.

(** The first and the last character of a string, if any. *)
Definition first_char (s : string) : option ascii :=
  match s with
  | EmptyString => None
  | String c _ => Some c
  end.

Fixpoint last_char (s : string) : option ascii :=
  match s with
  | EmptyString => None
  | String c EmptyString => Some c
  | String _ s' => last_char s'
  end.

(** The character does not occur in the string. *)
Fixpoint char_free (c : ascii) (s : string) : bool :=
  match s with
  | EmptyString => true
  | String c' s' => negb (Ascii.eqb c c') && char_free c s'
  end.

(** ** More checks by enumeration of the counts up to the cap *)

(** The printed percentage stays between 0.0 and 100.0, is 0.0 for the
    count 0 only and 100.0 for the whole only, and does not decrease when
    the count grows. *)
Definition percent_range (count total_articles : nat) : bool :=
  match reported_percent count total_articles,
        reported_percent (count + 1) total_articles with
  | Some z, Some z' =>
      (0 <=? z)%Z && (z <=? 1000)%Z &&
      bool_decide (z = 0%Z ↔ count = 0%nat) &&
      bool_decide (z = 1000%Z ↔ count = total_articles) &&
      ((total_articles <=? count)%nat || (z <=? z')%Z)
  | _, _ => false
  end.

Definition percent_range_upto (cap : nat) : bool :=
  forallb (λ total_articles,
    forallb (λ count,
      (total_articles =? 0)%nat || (total_articles <? count)%nat ||
      percent_range count total_articles)
      (seq 0 (S cap)))
    (seq 0 (S cap)).

(** * Properties *)

Example replace_ticker : replace ".NS" "" "TCS.NS" = "TCS".
Proof. reflexivity. Qed.

(** [f"{6.25:.1f}"] is 6.2, [f"{18.75:.1f}"] is 18.8, [f"{0.35:.1f}"] is
    0.3 and [f"{1/3*100:.1f}"] is 33.3. *)
Example fixed_one_decimal :
  fixed 1 6.25 = Some 62%Z ∧ fixed 1 18.75 = Some 188%Z ∧
  fixed 1 0x1.6666666666666p-2 = Some 3%Z ∧
  bind (percent 1 3) (λ x, Returns (fixed 1 x)) = Returns (Some 333%Z).
Proof. by vm_compute. Qed.

Example lower_ascii_only : lower "AI & M&M Ltd [Z]" = "ai & m&m ltd [z]".
Proof. reflexivity. Qed.

Example contains_substring :
  contains "ai" (lower "Retail gains") = true ∧
  contains "deal" (lower "Dealers idle") = true ∧
  contains "policy" (lower "Police") = false.
Proof. by vm_compute. Qed.

(** ** The fetch loop *)

(** Equalities of url sets built from [∪], [{[_]}] and [∅], by
    extensionality. *)
Ltac url_sets :=
  unfold urls, url_of; simpl;
  apply set_eq; intros ?;
  rewrite ?elem_of_union, ?elem_of_singleton, ?elem_of_union,
    ?elem_of_singleton, ?elem_of_empty;
  tauto.

Section FetchFacts.
Import Fetch.

Lemma truthy_spec s : truthy s = true ↔ s ≠ "".
Proof. destruct s; simpl; split; intros; congruence. Qed.

Lemma admissible_spec seen a :
  admissible seen a = true ↔ has_url a ∧ url_of a ∉ seen.
Proof.
  unfold admissible, has_url, url_of.
  rewrite andb_true_iff, truthy_spec, bool_decide_eq_true. tauto.
Qed.

Lemma admissible_false seen a :
  admissible seen a = false ↔ ¬ has_url a ∨ url_of a ∈ seen.
Proof.
  rewrite <- not_true_iff_false, admissible_spec.
  destruct (decide (has_url a)), (decide (url_of a ∈ seen)); tauto.
Qed.

(** The loop without its [break] admits the first occurrences of the urls
    that were not seen before and are not empty. *)
Lemma accepted_first_seen seen l :
  accepted seen l =
  filter (λ a, url_of a ∉ seen) (first_seen (filter has_url l)).
Proof.
  revert seen. induction l as [|a l IH]; intros seen; simpl; [done|].
  destruct (admissible seen a) eqn:E.
  - apply admissible_spec in E as [Hu Hs].
    rewrite (filter_cons_True has_url) by done. simpl.
    rewrite filter_cons_True by done. f_equal.
    rewrite IH, list_filter_filter. apply list_filter_iff.
    intros x. rewrite not_elem_of_union, not_elem_of_singleton. tauto.
  - apply admissible_false in E.
    destruct (decide (has_url a)) as [Hu|Hu].
    + destruct E as [E|E]; [done|].
      rewrite (filter_cons_True has_url) by done. simpl.
      rewrite filter_cons_False by (intros H; done).
      rewrite IH, list_filter_filter. apply list_filter_iff.
      intros x. split; [|tauto]. intros Hx. split; [done|]. congruence.
    + rewrite (filter_cons_False has_url) by done. apply IH.
Qed.

Lemma accepted_app seen l1 l2 :
  accepted seen (l1 ++ l2) =
  accepted seen l1 ++ accepted (urls (accepted seen l1) ∪ seen) l2.
Proof.
  revert seen. induction l1 as [|a l1 IH]; intros seen; simpl.
  - f_equal. url_sets.
  - destruct (admissible seen a); simpl; rewrite IH; [|done].
    apply (f_equal (λ s, _ :: _ ++ accepted s l2)). url_sets.
Qed.

(** One batch: the loop with its [break] holds the first 20 of what the
    loop without it would hold, and when it stays below 20 it has seen
    exactly the urls it accepted. *)
Lemma for_article_cons a l st :
  for_article (a :: l) st =
  if admissible (seen_urls st) a then
    let st' := {| all_articles := all_articles st ++ [a];
                  seen_urls := {[url_of a]} ∪ seen_urls st |} in
    if (20 <=? length (all_articles st'))%nat then st' else for_article l st'
  else for_article l st.
Proof. reflexivity. Qed.

Lemma for_query_cons r rs st :
  for_query (r :: rs) st =
  if (20 <=? length (all_articles st))%nat then st
  else for_query rs (try_query r st).
Proof. reflexivity. Qed.

Lemma for_article_spec l st :
  length (all_articles st) < 20 →
  let st' := for_article l st in
  all_articles st' = take 20 (all_articles st ++ accepted (seen_urls st) l) ∧
  (length (all_articles st') < 20 →
   all_articles st' = all_articles st ++ accepted (seen_urls st) l ∧
   seen_urls st' = urls (accepted (seen_urls st) l) ∪ seen_urls st).
Proof.
  revert st. induction l as [|a l IH]; intros st Hlen.
  - simpl. rewrite app_nil_r; rewrite take_ge by lia. split; [done|].
    intros _. split; [done|]. url_sets.
  - cbv zeta. rewrite for_article_cons. cbn [accepted].
    destruct (admissible (seen_urls st) a) eqn:E; [|by apply IH].
    cbv zeta. cbn [all_articles].
    destruct (Nat.leb_spec 20 (length (all_articles st ++ [a]))) as [Hge|Hlt].
    + rewrite length_app in Hge. cbn [all_articles seen_urls]. simpl in Hge.
      split; [|intros H; rewrite length_app in H; simpl in H; lia].
      rewrite (cons_middle a _ (accepted _ l)), app_assoc.
      rewrite take_app_le by (rewrite length_app; simpl; lia).
      rewrite take_ge by (rewrite length_app; simpl; lia). done.
    + specialize (IH {| all_articles := all_articles st ++ [a];
                        seen_urls := {[url_of a]} ∪ seen_urls st |} Hlt).
      cbv zeta in IH. cbn [all_articles seen_urls] in IH.
      destruct IH as [IH1 IH2].
      rewrite <- app_assoc in IH1. simpl in IH1. split; [done|].
      intros H. destruct (IH2 H) as [-> ->].
      rewrite <- app_assoc. simpl. split; [done|].
      url_sets.
Qed.

Lemma try_query_spec r st :
  length (all_articles st) < 20 →
  let st' := try_query r st in
  all_articles st' =
    take 20 (all_articles st ++ accepted (seen_urls st) (batch r)) ∧
  (length (all_articles st') < 20 →
   all_articles st' = all_articles st ++ accepted (seen_urls st) (batch r) ∧
   seen_urls st' = urls (accepted (seen_urls st) (batch r)) ∪ seen_urls st).
Proof.
  intros Hlen. destruct r as [|status articles]; simpl.
  - rewrite app_nil_r; rewrite take_ge by lia. repeat split; try done.
    url_sets.
  - case_bool_decide.
    + by apply for_article_spec.
    + simpl. rewrite app_nil_r; rewrite take_ge by lia. repeat split; try done.
      url_sets.
Qed.

(** The whole ladder: the loops hold the first 20 of what is accepted from
    the concatenation of the batches. *)
Lemma for_query_spec rs st :
  (length (all_articles st) ≤ 20)%nat →
  all_articles (for_query rs st) =
  take 20 (all_articles st ++ accepted (seen_urls st) (concat (batch <$> rs))).
Proof.
  revert st. induction rs as [|r rs IH]; intros st Hlen.
  - simpl. rewrite app_nil_r; rewrite take_ge by lia. done.
  - rewrite for_query_cons, fmap_cons. cbn [concat].
    destruct (Nat.leb_spec 20 (length (all_articles st))) as [Hge|Hlt].
    + rewrite take_app_le, take_ge by lia. done.
    + destruct (try_query_spec r st Hlt) as [H1 H2].
      assert (length (all_articles (try_query r st)) ≤ 20)%nat as Hle.
      { rewrite H1, length_take. lia. }
      rewrite IH by done. rewrite accepted_app, app_assoc.
      destruct (decide (length (all_articles (try_query r st)) < 20)) as [Hs|Hs].
      * destruct (H2 Hs) as [-> ->]. done.
      * assert (length (all_articles (try_query r st)) = 20) as H20 by lia.
        rewrite take_app_le, take_ge by lia.
        rewrite H1 in H20. rewrite length_take in H20.
        rewrite take_app_le by lia. done.
Qed.

Lemma for_query_aggregate rs :
  all_articles (for_query rs start) = aggregate (batch <$> rs).
Proof.
  rewrite for_query_spec by (simpl; lia). simpl.
  unfold aggregate. f_equal. rewrite accepted_first_seen.
  induction (first_seen _) as [|x l IH]; [done|].
  rewrite filter_cons_True by apply not_elem_of_empty. by f_equal.
Qed.

End FetchFacts.

(** ** The aggregate *)

Section AggregateFacts.

Lemma NoDup_urls_filter (P : Article → Prop) `{!∀ a, Decision (P a)} l :
  NoDup (url_of <$> l) → NoDup (url_of <$> filter P l).
Proof.
  induction l as [|a l IH]; [done|].
  rewrite fmap_cons, NoDup_cons. intros [Hnotin Hnd].
  rewrite filter_cons. destruct (decide (P a)); [|by apply IH].
  rewrite fmap_cons, NoDup_cons. split; [|by apply IH].
  rewrite list_elem_of_fmap. intros (b & Hb & Hin).
  apply list_elem_of_filter in Hin as [_ Hin].
  apply Hnotin. rewrite list_elem_of_fmap. eauto.
Qed.

Lemma first_seen_NoDup l : NoDup (url_of <$> first_seen l).
Proof.
  induction l as [|a l IH]; simpl; [constructor|].
  rewrite NoDup_cons. split; [|by apply NoDup_urls_filter].
  rewrite list_elem_of_fmap. intros (b & Hb & Hin).
  apply list_elem_of_filter in Hin as [Hne _]. congruence.
Qed.

Lemma first_seen_subset l a : a ∈ first_seen l → a ∈ l.
Proof.
  revert a. induction l as [|b l IH]; intros a; simpl; [done|].
  rewrite !elem_of_cons. intros [->|Hin]; [by left|].
  apply list_elem_of_filter in Hin as [_ Hin]. right. by apply IH.
Qed.

(** The first-seen list holds every url of the list it is taken from. *)
Lemma first_seen_covers l a :
  a ∈ l → ∃ b, b ∈ first_seen l ∧ url_of b = url_of a.
Proof.
  induction l as [|c l IH]; simpl; [by intros ?%elem_of_nil|].
  rewrite elem_of_cons. intros [->|Hin].
  - exists c. split; [by left|done].
  - destruct (decide (url_of a = url_of c)) as [Heq|Hne].
    + exists c. split; [by left|done].
    + destruct (IH Hin) as (b & Hb & Hub). exists b. split; [|done].
      right. apply list_elem_of_filter. split; [congruence|done].
Qed.

Lemma elem_of_concat {A} (x : A) (ls : list (list A)) :
  x ∈ concat ls ↔ ∃ l, x ∈ l ∧ l ∈ ls.
Proof.
  induction ls as [|l ls IH]; simpl.
  - split; [by intros ?%elem_of_nil|]. by intros (l & _ & ?%elem_of_nil).
  - rewrite elem_of_app, IH. split.
    + intros [Hx|(l' & Hx & Hl')].
      * exists l. split; [done|by left].
      * exists l'. split; [done|by right].
    + intros (l' & Hx & [->|Hl']%elem_of_cons); [by left|].
      right. eauto.
Qed.

Lemma aggregate_length batches : (length (aggregate batches) ≤ 20)%nat.
Proof. unfold aggregate. rewrite length_take. lia. Qed.

Lemma aggregate_NoDup batches : NoDup (url_of <$> aggregate batches).
Proof.
  unfold aggregate. rewrite fmap_take.
  eapply sublist_NoDup; [apply first_seen_NoDup|apply sublist_take].
Qed.

Lemma aggregate_has_url batches : Forall has_url (aggregate batches).
Proof.
  unfold aggregate. apply Forall_take, Forall_forall.
  intros a Ha%first_seen_subset. by apply list_elem_of_filter in Ha as [? _].
Qed.

Lemma aggregate_elem batches a :
  a ∈ aggregate batches → has_url a ∧ ∃ l, a ∈ l ∧ l ∈ batches.
Proof.
  unfold aggregate. intros Ha.
  assert (a ∈ first_seen (filter has_url (concat batches))) as Hin.
  { eapply elem_of_sublist; [exact Ha|apply sublist_take]. }
  apply first_seen_subset, list_elem_of_filter in Hin as [Hu Hin].
  split; [done|]. by apply elem_of_concat.
Qed.

Lemma aggregate_nil batches :
  aggregate batches = [] ↔ ∀ l a, l ∈ batches → a ∈ l → ¬ has_url a.
Proof.
  unfold aggregate. split.
  - intros Hnil l a Hl Ha Hu.
    assert (a ∈ filter has_url (concat batches)) as Hin.
    { apply list_elem_of_filter. split; [done|].
      apply elem_of_concat. eauto. }
    destruct (first_seen_covers _ _ Hin) as (b & Hb & _).
    destruct (first_seen _); [by apply elem_of_nil in Hb|done].
  - intros Hall.
    assert (filter has_url (concat batches) = []) as ->; [|done].
    destruct (filter _ _) as [|a l] eqn:E; [done|].
    assert (a ∈ filter has_url (concat batches)) as Hin by (rewrite E; by left).
    apply list_elem_of_filter in Hin as [Hu Hin].
    apply elem_of_concat in Hin as (l' & Ha & Hl').
    by destruct (Hall l' a).
Qed.

Lemma collect_aggregate an company_name requests_get :
  collect an company_name requests_get =
  aggregate (batch <$> ladder an company_name requests_get).
Proof. apply for_query_aggregate. Qed.

Lemma fetch_news_collect an company_name requests_get :
  fetch_news an company_name requests_get =
  match collect an company_name requests_get with
  | [] => (false, an)
  | _ :: _ =>
      (true, set_news_articles an (collect an company_name requests_get))
  end.
Proof.
  unfold fetch_news.
  pose proof (aggregate_length (batch <$> ladder an company_name requests_get)) as Hlen.
  rewrite <- collect_aggregate in Hlen.
  destruct (Nat.leb_spec 20 (length (collect an company_name requests_get))).
  - rewrite take_ge by done.
    destruct (collect an company_name requests_get); [simpl in *; lia|done].
  - destruct (collect an company_name requests_get); done.
Qed.

(** After a fetch on a fresh analyzer the held articles are the collected
    ones, whether or not the fetch reports success. *)
Lemma fetch_news_fresh an company_name requests_get :
  news_articles an = [] →
  news_articles (fetch_news an company_name requests_get).2 =
  collect an company_name requests_get.
Proof.
  intros Hfresh. rewrite fetch_news_collect.
  destruct (collect an company_name requests_get); done.
Qed.

End AggregateFacts.

(** ** Claims about [fetch_news] *)

(** C1 (as amended): after [fetch_news] on a fresh analyzer the held
    articles are the concatenation of the batches of the ladder, restricted
    to the articles with a non-empty url, filtered to the first occurrence
    of each url in first-seen order and cut at 20; they are at most 20 and
    no two of them share a url. *)
Theorem fetch_news_first_seen ticker key history company_name requests_get :
  let an := fetch_stock_data (init ticker key) history in
  let held := news_articles (fetch_news an company_name requests_get).2 in
  held =
    take 20 (first_seen (filter has_url
      (concat (batch <$> ladder an company_name requests_get)))) ∧
  (length held ≤ 20)%nat ∧
  NoDup (url_of <$> held).
Proof.
  intros an held. subst held.
  rewrite fetch_news_fresh by done. rewrite collect_aggregate.
  split; [done|]. split; [apply aggregate_length|apply aggregate_NoDup].
Qed.

(** C1 (as stated) fails: when every query returns one article whose url
    is the empty string, the specification's aggregate holds that article
    and [fetch_news] holds nothing. *)
Lemma fetch_news_first_seen_counterexample :
  let held :=
    news_articles (fetch_news Sample.tcs "TCS" Sample.every_query_urlless).2 in
  let batches := batch <$> ladder Sample.tcs "TCS" Sample.every_query_urlless in
  held = [] ∧ aggregate_spec batches = [Sample.urlless] ∧
  held ≠ aggregate_spec batches.
Proof. vm_compute. repeat split. discriminate. Qed.

Section LadderFacts.
Import Fetch.

Lemma has_url_spec a : has_url a ↔ ∃ u, url a = Some u ∧ u ≠ "".
Proof.
  unfold has_url, url_of, get. destruct (url a) as [u|].
  - split; [eauto|]. by intros (? & [= <-] & ?).
  - split; [done|]. by intros (? & [=] & _).
Qed.

Lemma batch_without_urlless r :
  batch (without_urlless r) = filter has_url (batch r).
Proof.
  destruct r as [|status articles]; simpl; [done|].
  by case_bool_decide.
Qed.

Lemma filter_has_url_idemp (l : list Article) :
  filter has_url (filter has_url l) = filter has_url l.
Proof. rewrite list_filter_filter. apply list_filter_iff. tauto. Qed.

(** The url-carrying part of the batches is the same with and without the
    url-less articles. *)
Lemma ladder_without_urlless (f : nat → string → Response) queries :
  filter has_url (concat (batch <$> imap (λ i q, without_urlless (f i q)) queries)) =
  filter has_url (concat (batch <$> imap f queries)).
Proof.
  revert f. induction queries as [|q queries IH]; intros f; [done|].
  rewrite !imap_cons, !fmap_cons. cbn [concat].
  rewrite !filter_app, batch_without_urlless, filter_has_url_idemp.
  f_equal. apply (IH (f ∘ S)).
Qed.

Lemma failed_batch r : failed r → batch r = [].
Proof.
  destruct r as [|status articles]; simpl; [done|].
  intros Hne. by case_bool_decide.
Qed.

Lemma failed_try_query r st : failed r → try_query r st = st.
Proof.
  destruct r as [|status articles]; simpl; [done|].
  intros Hne. by case_bool_decide.
Qed.

(** Once [for_query] holds 20 articles it holds them to the end. *)
Lemma for_query_full rs st :
  (20 ≤ length (all_articles st))%nat → for_query rs st = st.
Proof.
  intros Hfull. destruct rs as [|r rs]; [done|].
  rewrite for_query_cons.
  by destruct (Nat.leb_spec 20 (length (all_articles st))); [|lia].
Qed.

(** A failed query is passed over: the loop goes on with the next query
    from the state it had. *)
Lemma for_query_skip_failed r pre post st :
  failed r → for_query (pre ++ r :: post) st = for_query (pre ++ post) st.
Proof.
  intros Hfail. revert st. induction pre as [|p pre IH]; intros st.
  - cbn [app]. rewrite for_query_cons, failed_try_query by done.
    destruct (Nat.leb_spec 20 (length (all_articles st))); [|done].
    by rewrite for_query_full.
  - rewrite <- !app_comm_cons, !for_query_cons.
    destruct (Nat.leb_spec 20 (length (all_articles st))); [done|].
    apply IH.
Qed.

Lemma ladder_batches_ext an company_name (f g : NewsSource) :
  (∀ i q, batch (f i q) = batch (g i q)) →
  batch <$> ladder an company_name f = batch <$> ladder an company_name g.
Proof.
  intros Hext. unfold ladder, responses.
  generalize (search_queries company_name (replace ".NS" "" (ticker an))).
  intros queries. revert f g Hext.
  induction queries as [|q queries IH]; intros f g Hext; [done|].
  rewrite !imap_cons, !fmap_cons, Hext. f_equal.
  apply IH. intros i q'. apply Hext.
Qed.

Lemma fetch_news_success an company_name requests_get :
  (fetch_news an company_name requests_get).1 = true ↔
  ∃ r a, r ∈ ladder an company_name requests_get ∧ a ∈ batch r ∧ has_url a.
Proof.
  rewrite fetch_news_collect.
  pose proof (aggregate_nil (batch <$> ladder an company_name requests_get)) as Hnil.
  rewrite <- collect_aggregate in Hnil.
  destruct (collect an company_name requests_get) as [|a0 l] eqn:E; simpl.
  - split; [done|]. intros (r & a & Hr & Ha & Hu).
    destruct Hnil as [Hnil _]. exfalso.
    apply (Hnil eq_refl (batch r) a); [|done|done].
    apply list_elem_of_fmap. eauto.
  - split; [|done]. intros _.
    destruct (aggregate_elem (batch <$> ladder an company_name requests_get) a0)
      as (Hu & bl & Ha & (r & -> & Hr)%list_elem_of_fmap).
    { rewrite <- collect_aggregate, E. by left. }
    eauto.
Qed.

End LadderFacts.

(** C10: an article whose url is missing or empty is never accepted, so
    every held article has a non-empty url; and such an article never masks
    another one: taking the url-less articles out of every response leaves
    the outcome of the fetch unchanged. *)
Theorem fetch_news_urls_nonempty ticker key history company_name requests_get :
  let an := fetch_stock_data (init ticker key) history in
  (∀ a, a ∈ news_articles (fetch_news an company_name requests_get).2 →
        ∃ u, url a = Some u ∧ u ≠ "") ∧
  fetch_news an company_name (λ i q, without_urlless (requests_get i q)) =
  fetch_news an company_name requests_get.
Proof.
  intros an. split.
  - intros a. rewrite fetch_news_fresh by done. rewrite collect_aggregate.
    intros [Hu _]%aggregate_elem. by apply has_url_spec.
  - assert (collect an company_name (λ i q, without_urlless (requests_get i q)) =
            collect an company_name requests_get) as Heq.
    { rewrite !collect_aggregate. unfold aggregate, ladder, responses.
      by rewrite ladder_without_urlless. }
    by rewrite !fetch_news_collect, Heq.
Qed.

(** C7 (as amended): a failed query (its request raised, or its status is
    not "ok") hands over no article and the loop goes on with the next
    query; a fetch is the same whether a failed query failed or returned
    nothing; and the fetch succeeds exactly when some query of the ladder
    returns an article with a non-empty url. *)
Theorem fetch_news_failures_skipped an company_name requests_get :
  (∀ r, failed r →
        batch r = [] ∧
        ∀ pre post st,
          Fetch.for_query (pre ++ r :: post) st = Fetch.for_query (pre ++ post) st) ∧
  (∀ requests_get' : NewsSource,
     (∀ i q, requests_get' i q = requests_get i q ∨
             (failed (requests_get i q) ∧ batch (requests_get' i q) = [])) →
     fetch_news an company_name requests_get' =
     fetch_news an company_name requests_get) ∧
  ((fetch_news an company_name requests_get).1 = true ↔
   ∃ r a, r ∈ ladder an company_name requests_get ∧ a ∈ batch r ∧ has_url a).
Proof.
  split; [|split].
  - intros r Hfail. split; [by apply failed_batch|].
    intros pre post st. by apply for_query_skip_failed.
  - intros requests_get' Hsame.
    assert (collect an company_name requests_get' =
            collect an company_name requests_get) as Heq.
    { rewrite !collect_aggregate. f_equal. apply ladder_batches_ext.
      intros i q. destruct (Hsame i q) as [->|[Hfail ->]]; [done|].
      by rewrite failed_batch. }
    by rewrite !fetch_news_collect, Heq.
  - apply fetch_news_success.
Qed.

(** C7 (as stated) fails: the first query succeeds and returns one
    article, whose url is the empty string, and the fetch reports
    failure. *)
Lemma fetch_news_failures_skipped_counterexample :
  (∃ r, r ∈ ladder Sample.tcs "TCS" Sample.first_query_urlless ∧
        ¬ failed r ∧ batch r = [Sample.urlless]) ∧
  (fetch_news Sample.tcs "TCS" Sample.first_query_urlless).1 = false.
Proof.
  split; [|by vm_compute].
  exists (Body (Some "ok") (Some [Sample.urlless])).
  split; [by left|]. split; [|done].
  simpl. intros Hne. by apply Hne.
Qed.

(** ** The summary *)

Lemma count_sentiment_bucket polarity (b : SentimentBucket) articles c :
  let c' := count_sentiment polarity articles c in
  let count_of (c : Counts) :=
    match b with
    | Positive => positive_count c
    | Negative => negative_count c
    | Neutral => neutral_count c
    end in
  count_of c' =
  (count_of c +
   length (filter (λ a, summary_bucket polarity a = b) articles))%nat.
Proof.
  revert c. induction articles as [|a l IH]; intros c; simpl.
  - by destruct b; simpl; lia.
  - specialize (IH (tally c (classify (polarity (summary_text a))))).
    simpl in IH. rewrite IH, filter_cons.
    assert (summary_bucket polarity a = classify (polarity (summary_text a)))
      as Hb by done.
    destruct (classify (polarity (summary_text a))), b;
      case_decide; try congruence; simpl; lia.
Qed.

Lemma count_sentiment_total polarity articles c :
  let c' := count_sentiment polarity articles c in
  (positive_count c' + negative_count c' + neutral_count c' =
   positive_count c + negative_count c + neutral_count c + length articles)%nat.
Proof.
  revert c. induction articles as [|a l IH]; intros c; simpl; [lia|].
  specialize (IH (tally c (classify (polarity (summary_text a))))).
  simpl in IH. rewrite IH.
  destruct (classify (polarity (summary_text a))); simpl; lia.
Qed.

Lemma percent_returns count total :
  (0 < total)%nat →
  percent count total =
  Returns (float_of_int count / float_of_int total * 100)%float.
Proof. destruct total; [lia|done]. Qed.

Lemma percent_zero count : percent count 0 = Raises ZeroDivisionError.
Proof. done. Qed.

(** *** Which lines each part of the summary contributes *)

Lemma topic_lines_elem articles x :
  x ∈ topic_lines articles →
  x = GeneralUpdates ∨
  ∃ topic count, x = TopicMentions topic count ∧
    (topic, count) ∈ topic_tally articles ∧ (0 < count)%nat.
Proof.
  unfold topic_lines.
  assert (∀ tl, x ∈ flat_map (λ '(topic, count),
                   if (0 <? count)%nat then [TopicMentions topic count] else [])
                   tl →
               ∃ topic count, x = TopicMentions topic count ∧
                 (topic, count) ∈ tl ∧ (0 < count)%nat) as Hflat.
  { induction tl as [|[t n] tl IH]; simpl; [by intros ?%elem_of_nil|].
    rewrite elem_of_app. intros [Hx|Hx].
    - destruct (Nat.ltb_spec 0 n); [|by apply elem_of_nil in Hx].
      apply list_elem_of_singleton in Hx as ->.
      exists t, n. split; [done|]. split; [by left|done].
    - destruct (IH Hx) as (t' & n' & -> & Hin & Hpos).
      exists t', n'. split; [done|]. split; [by right|done]. }
  destruct (flat_map _ _) as [|y l] eqn:E.
  - intros ->%list_elem_of_singleton. by left.
  - intros Hx. right. apply Hflat. by rewrite E.
Qed.

Lemma imap_elem {A B} (f : nat → A → B) (l : list A) y :
  y ∈ imap f l → ∃ i a, y = f i a.
Proof.
  revert f. induction l as [|a l IH]; intros f; [by intros ?%elem_of_nil|].
  rewrite imap_cons, elem_of_cons. intros [->|Hy]; [by eauto|].
  destruct (IH _ Hy) as (i & b & ->). by exists (S i), b.
Qed.

Lemma highlight_lines_elem articles x :
  x ∈ highlight_lines articles → ∃ i date title, x = Highlight i date title.
Proof.
  unfold highlight_lines. intros (i & a & ->)%imap_elem. eauto.
Qed.

Lemma iloc_back_last (front : list float) x :
  iloc_back (front ++ [x]) 1 = Returns x.
Proof.
  unfold iloc_back. rewrite length_app. simpl.
  destruct (Nat.ltb_spec (length front + 1) 1); [lia|].
  replace (length front + 1 - 1)%nat with (length front + 0)%nat by lia.
  by rewrite lookup_app_r, Nat.add_0_r, Nat.sub_diag by lia.
Qed.

Lemma iloc_back_before_last (front : list float) x y :
  iloc_back (front ++ [x; y]) 2 = Returns x.
Proof.
  unfold iloc_back. rewrite length_app. simpl.
  destruct (Nat.ltb_spec (length front + 2) 2); [lia|].
  replace (length front + 2 - 2)%nat with (length front + 0)%nat by lia.
  by rewrite lookup_app_r, Nat.add_0_r, Nat.sub_diag by lia.
Qed.

(** A series of fewer than two closes gives no line, and no error. *)
Lemma market_context_short closes :
  (length closes < 2)%nat → market_context_lines (Some closes) = Returns [].
Proof.
  intros Hlen. unfold market_context_lines.
  by destruct (Nat.ltb_spec 1 (length closes)); [lia|].
Qed.

(** A series that ends with [prev; cur] gives the two price lines. *)
Lemma market_context_long front prev cur :
  market_context_lines (Some (front ++ [prev; cur])) =
  Returns [CurrentPrice cur; RecentChange (price_change cur prev)].
Proof.
  unfold market_context_lines.
  destruct (Nat.ltb_spec 1 (length (front ++ [prev; cur]))) as [_|Hlen].
  - rewrite (iloc_back_before_last front prev cur).
    rewrite (app_assoc front [prev] [cur] : front ++ [prev; cur] = _).
    by rewrite iloc_back_last.
  - rewrite length_app in Hlen. simpl in Hlen. lia.
Qed.

Lemma two_closes (closes : list float) :
  (2 ≤ length closes)%nat → ∃ front prev cur, closes = front ++ [prev; cur].
Proof.
  intros Hlen.
  destruct (rev closes) as [|cur [|prev r]] eqn:E.
  - apply (f_equal (@length _)) in E. rewrite length_rev in E. simpl in E. lia.
  - apply (f_equal (@length _)) in E. rewrite length_rev in E. simpl in E. lia.
  - exists (rev r), prev, cur.
    rewrite <- (rev_involutive closes), E. simpl.
    by rewrite <- app_assoc.
Qed.

Lemma market_context_elem closes market x :
  market_context_lines (Some closes) = Returns market → x ∈ market →
  ∃ v, x = CurrentPrice v ∨ x = RecentChange v.
Proof.
  destruct (decide (length closes < 2)%nat) as [Hs|Hl].
  - rewrite market_context_short by done. intros [= <-]. by intros ?%elem_of_nil.
  - destruct (two_closes closes) as (f & p & c & ->); [lia|].
    rewrite market_context_long. intros [= <-].
    rewrite !elem_of_cons, elem_of_nil. intros [->|[->|[]]]; eauto.
Qed.

Lemma summary_lines_elem company_name ticker articles c pp np up market x :
  x ∈ summary_lines company_name ticker articles c pp np up market ↔
  x ∈ [ Header company_name ticker; AnalysisPeriod (length articles);
        OverallSentiment (overall_sentiment c); BreakdownHeading;
        PositiveArticles (positive_count c) pp;
        NegativeArticles (negative_count c) np;
        NeutralArticles (neutral_count c) up; TopicsHeading;
        HighlightsHeading; MarketContextHeading; ConclusionHeading;
        Conclusion (conclusion c) company_name ] ∨
  x ∈ topic_lines articles ∨ x ∈ highlight_lines articles ∨ x ∈ market.
Proof.
  unfold summary_lines.
  rewrite !elem_of_app, !elem_of_cons, !elem_of_nil. tauto.
Qed.

Lemma summary_lines_last company_name ticker articles c pp np up market :
  last (summary_lines company_name ticker articles c pp np up market) =
  Some (Conclusion (conclusion c) company_name).
Proof.
  unfold summary_lines. rewrite !app_assoc.
  change [ConclusionHeading; Conclusion (conclusion c) company_name]
    with ([ConclusionHeading] ++ [Conclusion (conclusion c) company_name]).
  rewrite app_assoc. apply last_snoc.
Qed.

(** The summary of an analyzer that holds articles and price data. *)
Lemma generate_summary_returns polarity an company_name a rest closes :
  news_articles an = a :: rest → stock_data an = Some closes →
  ∃ market,
    market_context_lines (Some closes) = Returns market ∧
    generate_summary polarity an company_name =
    Returns (Report
      (let c := count_sentiment polarity (news_articles an) (mkCounts 0 0 0) in
       let total := length (news_articles an) in
       summary_lines company_name (ticker an) (news_articles an) c
         (float_of_int (positive_count c) / float_of_int total * 100)%float
         (float_of_int (negative_count c) / float_of_int total * 100)%float
         (float_of_int (neutral_count c) / float_of_int total * 100)%float
         market)).
Proof.
  intros Hnews Hdata.
  assert (∃ market, market_context_lines (Some closes) = Returns market)
    as [market Hmarket].
  { destruct (decide (length closes < 2)%nat) as [Hs|Hl].
    - rewrite market_context_short by done. eauto.
    - destruct (two_closes closes) as (f & p & c & ->); [lia|].
      rewrite market_context_long. eauto. }
  exists market. split; [done|].
  unfold generate_summary. rewrite Hdata, Hmarket, Hnews.
  rewrite <- Hnews.
  rewrite !percent_returns by (rewrite Hnews; simpl; lia). done.
Qed.

(** Whenever [generate_summary] returns a report, the analyzer holds
    articles and price data. *)
Lemma generate_summary_report polarity an company_name lines :
  generate_summary polarity an company_name = Returns (Report lines) →
  ∃ a rest closes,
    news_articles an = a :: rest ∧ stock_data an = Some closes.
Proof.
  unfold generate_summary.
  destruct (news_articles an) as [|a rest] eqn:Hnews; [done|].
  destruct (stock_data an) as [closes|] eqn:Hdata; [by eauto|].
  intros H. exfalso. revert H. rewrite !percent_returns by (simpl; lia).
  done.
Qed.

(** A line of a kind that only the fixed part of the summary produces:
    the other parts are searched and ruled out by the shape of their
    lines. *)
Ltac fixed_line H Hmarket :=
  apply summary_lines_elem in H;
  destruct H as [H|[H|[H|H]]];
  [ rewrite !elem_of_cons, elem_of_nil in H
  | apply topic_lines_elem in H as [H|(? & ? & H & _)]; discriminate H
  | apply highlight_lines_elem in H as (? & ? & ? & H); discriminate H
  | destruct (market_context_elem _ _ _ Hmarket H) as [? [?|?]]; congruence ].

(** *** The float comparisons and roundings, on the counts up to 20 *)

Lemma ratio_rule_20 : ratio_rule_upto 20 = true.
Proof. vm_compute. reflexivity. Qed.

Lemma percent_law_20 : percent_law_upto 20 = true.
Proof. vm_compute. reflexivity. Qed.

Lemma forallb_seq (f : nat → bool) n k :
  forallb f (seq 0 n) = true → (k < n)%nat → f k = true.
Proof.
  intros H Hk. rewrite forallb_forall in H. apply H, in_seq. lia.
Qed.

Lemma ratio_rule_upto_spec cap p n :
  ratio_rule_upto cap = true → (p ≤ cap)%nat → (n ≤ cap)%nat →
  conclusion (mkCounts p n 0) = ratio_rule p n.
Proof.
  unfold ratio_rule_upto. intros H Hp Hn.
  apply (forallb_seq _ _ p) in H; [|lia].
  apply (forallb_seq _ _ n) in H; [|lia].
  by apply bool_decide_eq_true in H.
Qed.

Lemma percent_law_upto_spec cap p n u :
  percent_law_upto cap = true → (1 ≤ p + n + u ≤ cap)%nat →
  percent_law p n u = true.
Proof.
  unfold percent_law_upto. intros H Hsum.
  apply (forallb_seq _ _ p) in H; [|lia].
  apply (forallb_seq _ _ n) in H; [|lia].
  apply (forallb_seq _ _ u) in H; [|lia].
  apply orb_true_iff in H as [H|H]; [|exact H].
  apply Nat.eqb_eq in H. lia.
Qed.

Lemma conclusion_ratio_rule c :
  (positive_count c ≤ 20)%nat → (negative_count c ≤ 20)%nat →
  conclusion c = ratio_rule (positive_count c) (negative_count c).
Proof.
  intros Hp Hn. destruct c as [p n u].
  exact (ratio_rule_upto_spec 20 p n ratio_rule_20 Hp Hn).
Qed.

Lemma percent_law_holds p n u :
  (1 ≤ p + n + u ≤ 20)%nat → percent_law p n u = true.
Proof. exact (percent_law_upto_spec 20 p n u percent_law_20). Qed.

(** ** Claims about [generate_summary] *)

(** The counts of a report, and what the report is made of. *)
Lemma report_shape polarity an company_name lines :
  generate_summary polarity an company_name = Returns (Report lines) →
  let c := count_sentiment polarity (news_articles an) (mkCounts 0 0 0) in
  let total := length (news_articles an) in
  ∃ closes market,
    (1 ≤ total)%nat ∧
    stock_data an = Some closes ∧
    market_context_lines (Some closes) = Returns market ∧
    lines =
      summary_lines company_name (ticker an) (news_articles an) c
        (float_of_int (positive_count c) / float_of_int total * 100)%float
        (float_of_int (negative_count c) / float_of_int total * 100)%float
        (float_of_int (neutral_count c) / float_of_int total * 100)%float
        market.
Proof.
  intros Hgen c total.
  destruct (generate_summary_report _ _ _ _ Hgen)
    as (a & rest & closes & Hnews & Hdata).
  destruct (generate_summary_returns polarity an company_name _ _ _ Hnews Hdata)
    as (market & Hmarket & Hret).
  exists closes, market. rewrite Hret in Hgen. injection Hgen as <-.
  repeat split; try done. subst total. rewrite Hnews. simpl. lia.
Qed.

(** The lines the fixed part of the summary shows, and no other part. *)
Lemma fixed_lines_elem company_name ticker articles c pp np up closes market :
  market_context_lines (Some closes) = Returns market →
  let lines := summary_lines company_name ticker articles c pp np up market in
  (∀ n x, PositiveArticles n x ∈ lines ↔ n = positive_count c ∧ x = pp) ∧
  (∀ n x, NegativeArticles n x ∈ lines ↔ n = negative_count c ∧ x = np) ∧
  (∀ n x, NeutralArticles n x ∈ lines ↔ n = neutral_count c ∧ x = up) ∧
  (∀ o, OverallSentiment o ∈ lines ↔ o = overall_sentiment c) ∧
  (∀ k name, Conclusion k name ∈ lines ↔ k = conclusion c ∧ name = company_name).
Proof.
  intros Hmarket lines. subst lines.
  repeat apply conj; intros; (split; [intros Hin|intros Heq]).
  all: try (fixed_line Hin Hmarket; destruct_or! Hin; try discriminate Hin;
            injection Hin; intros; by subst).
  all: repeat match type of Heq with
              | _ ∧ _ => destruct Heq as [-> ->]
              | _ = _ => rewrite Heq; clear Heq
              end.
  all: apply summary_lines_elem; left; rewrite !elem_of_cons; tauto.
Qed.

(** C3: in a report on at most 20 articles every article is counted in
    exactly one bucket, the three counts add up to the number of articles,
    and the three percentages the breakdown lines show (count / total × 100,
    printed with one decimal) add up to 100 within ±0.1. *)
Theorem percentages_sum polarity an company_name lines :
  (length (news_articles an) ≤ 20)%nat →
  generate_summary polarity an company_name = Returns (Report lines) →
  let articles := news_articles an in
  let c := count_sentiment polarity articles (mkCounts 0 0 0) in
  let in_bucket b := length (filter (λ a, summary_bucket polarity a = b) articles) in
  positive_count c = in_bucket Positive ∧
  negative_count c = in_bucket Negative ∧
  neutral_count c = in_bucket Neutral ∧
  (positive_count c + negative_count c + neutral_count c = length articles)%nat ∧
  ∃ pp np up a b d,
    (∀ n x, PositiveArticles n x ∈ lines ↔ n = positive_count c ∧ x = pp) ∧
    (∀ n x, NegativeArticles n x ∈ lines ↔ n = negative_count c ∧ x = np) ∧
    (∀ n x, NeutralArticles n x ∈ lines ↔ n = neutral_count c ∧ x = up) ∧
    percent (positive_count c) (length articles) = Returns pp ∧
    percent (negative_count c) (length articles) = Returns np ∧
    percent (neutral_count c) (length articles) = Returns up ∧
    fixed 1 pp = Some a ∧ fixed 1 np = Some b ∧ fixed 1 up = Some d ∧
    (999 ≤ a + b + d ≤ 1001)%Z.
Proof.
  intros Hcap Hgen articles c in_bucket.
  destruct (report_shape _ _ _ _ Hgen) as (closes & market & Hpos & _ & Hmarket & ->).
  fold articles c in Hpos |- *.
  pose proof (count_sentiment_total polarity articles (mkCounts 0 0 0)) as Hsum.
  simpl in Hsum. fold c in Hsum.
  split; [apply (count_sentiment_bucket polarity Positive articles (mkCounts 0 0 0))|].
  split; [apply (count_sentiment_bucket polarity Negative articles (mkCounts 0 0 0))|].
  split; [apply (count_sentiment_bucket polarity Neutral articles (mkCounts 0 0 0))|].
  split; [done|].
  pose proof (percent_law_holds (positive_count c) (negative_count c)
                (neutral_count c)) as Hlaw.
  rewrite Hsum in Hlaw. specialize (Hlaw (conj Hpos Hcap)).
  unfold percent_law, reported_percent in Hlaw. rewrite Hsum in Hlaw.
  rewrite !percent_returns in Hlaw |- * by lia.
  destruct (fixed 1 _) as [a|] eqn:Ea in Hlaw; [|done].
  destruct (fixed 1 _) as [b|] eqn:Eb in Hlaw; [|done].
  destruct (fixed 1 _) as [d|] eqn:Ed in Hlaw; [|done].
  apply andb_true_iff in Hlaw as [Hlo Hhi].
  apply Z.leb_le in Hlo, Hhi.
  eexists _, _, _, a, b, d.
  destruct (fixed_lines_elem company_name (ticker an) articles c
              (float_of_int (positive_count c) / float_of_int (length articles) * 100)%float
              (float_of_int (negative_count c) / float_of_int (length articles) * 100)%float
              (float_of_int (neutral_count c) / float_of_int (length articles) * 100)%float
              closes market Hmarket) as (Hp & Hn & Hu & _ & _).
  split; [exact Hp|]. split; [exact Hn|]. split; [exact Hu|].
  repeat split; try done; lia.
Qed.

Lemma percentages_sum_witness :
  let an := Sample.tcs_seven in
  let lines := Sample.lines_of (generate_summary Sample.word_polarity an "TCS") in
  (length (news_articles an) ≤ 20)%nat ∧
  generate_summary Sample.word_polarity an "TCS" = Returns (Report lines) ∧
  ∃ pp np up a b d,
    PositiveArticles 4 pp ∈ lines ∧ NegativeArticles 3 np ∈ lines ∧
    NeutralArticles 0 up ∈ lines ∧
    fixed 1 pp = Some a ∧ fixed 1 np = Some b ∧ fixed 1 up = Some d ∧
    (999 ≤ a + b + d ≤ 1001)%Z.
Proof.
  intros an lines.
  assert (length (news_articles an) ≤ 20)%nat as H1 by (vm_compute; lia).
  assert (generate_summary Sample.word_polarity an "TCS" = Returns (Report lines))
    as H2 by (vm_compute; reflexivity).
  split; [exact H1|]. split; [exact H2|].
  destruct (percentages_sum Sample.word_polarity an "TCS" lines H1 H2)
    as (_ & _ & _ & _ & pp & np & up & a & b & d &
        Hp & Hn & Hu & _ & _ & _ & Fa & Fb & Fd & Hs).
  exists pp, np, up, a, b, d.
  split; [apply Hp; split; reflexivity|].
  split; [apply Hn; split; reflexivity|].
  split; [apply Hu; split; reflexivity|].
  repeat split; try assumption; apply Hs.
Defined.

(** C4: the closing statement of a report on at most 20 articles is the
    last line and follows the strict ratio rule on the counts: strongly
    positive when positive > negative × 1.5 (that is 2 p > 3 n), otherwise
    concerning when negative > positive × 1.5, otherwise balanced; so
    10/2/3 is strongly positive, 2/10 concerning and 5/5/5 balanced. *)
Theorem closing_statement_ratio_rule polarity an company_name lines :
  (length (news_articles an) ≤ 20)%nat →
  generate_summary polarity an company_name = Returns (Report lines) →
  let c := count_sentiment polarity (news_articles an) (mkCounts 0 0 0) in
  let p := positive_count c in
  let n := negative_count c in
  ∃ k,
    last lines = Some (Conclusion k company_name) ∧
    (∀ k' name, Conclusion k' name ∈ lines ↔ k' = k ∧ name = company_name) ∧
    ((3 * n < 2 * p)%nat → k = StronglyPositive) ∧
    (¬ (3 * n < 2 * p)%nat → (3 * p < 2 * n)%nat → k = Concerning) ∧
    (¬ (3 * n < 2 * p)%nat → ¬ (3 * p < 2 * n)%nat → k = Balanced) ∧
    (p = 10%nat → n = 2%nat → k = StronglyPositive) ∧
    (p = 2%nat → n = 10%nat → k = Concerning) ∧
    (p = 5%nat → n = 5%nat → k = Balanced).
Proof.
  intros Hcap Hgen c p n.
  destruct (report_shape _ _ _ _ Hgen) as (closes & market & Hpos & _ & Hmarket & ->).
  fold c.
  pose proof (count_sentiment_total polarity (news_articles an) (mkCounts 0 0 0))
    as Hsum.
  simpl in Hsum. fold c in Hsum.
  assert (conclusion c = ratio_rule p n) as Hrule.
  { apply conclusion_ratio_rule; lia. }
  exists (ratio_rule p n).
  split; [by rewrite summary_lines_last, Hrule|].
  split.
  { intros k' name. rewrite <- Hrule.
    by apply (fixed_lines_elem _ _ _ _ _ _ _ _ _ Hmarket). }
  unfold ratio_rule.
  destruct (Nat.ltb_spec (3 * n) (2 * p)), (Nat.ltb_spec (3 * p) (2 * n));
    repeat split; intros; try done; lia.
Qed.

Lemma closing_statement_ratio_rule_witness :
  let an := Sample.fetched (Sample.mixed 10 2 3) in
  let lines := Sample.lines_of (generate_summary Sample.word_polarity an "TCS") in
  (length (news_articles an) ≤ 20)%nat ∧
  generate_summary Sample.word_polarity an "TCS" = Returns (Report lines) ∧
  last lines = Some (Conclusion StronglyPositive "TCS").
Proof.
  intros an lines.
  assert (length (news_articles an) ≤ 20)%nat as H1 by (vm_compute; lia).
  assert (generate_summary Sample.word_polarity an "TCS" = Returns (Report lines))
    as H2 by (vm_compute; reflexivity).
  split; [exact H1|]. split; [exact H2|].
  destruct (closing_statement_ratio_rule Sample.word_polarity an "TCS" lines H1 H2)
    as (k & Hlast & _ & _ & _ & _ & H1023 & _).
  rewrite Hlast. f_equal. f_equal. apply H1023; reflexivity.
Defined.

Lemma overall_sentiment_majority_rule c :
  overall_sentiment c = majority (positive_count c) (negative_count c).
Proof.
  unfold overall_sentiment, majority.
  destruct (Nat.compare_spec (positive_count c) (negative_count c));
    destruct (Nat.ltb_spec (negative_count c) (positive_count c));
    destruct (Nat.ltb_spec (positive_count c) (negative_count c));
    try done; lia.
Qed.

(** C9: the "Overall Sentiment" header of a report follows the simple
    majority of the positive and negative counts (more positive:
    predominantly positive; more negative: predominantly negative; a tie:
    mixed), whatever the 1.5 ratio rule of the closing statement says: with
    4 positive and 3 negative articles the header is predominantly positive
    and the closing statement is the balanced one. *)
Theorem overall_header_majority polarity an company_name lines :
  generate_summary polarity an company_name = Returns (Report lines) →
  let c := count_sentiment polarity (news_articles an) (mkCounts 0 0 0) in
  let p := positive_count c in
  let n := negative_count c in
  ∃ o,
    (∀ o', OverallSentiment o' ∈ lines ↔ o' = o) ∧
    ((n < p)%nat → o = PredominantlyPositive) ∧
    ((p < n)%nat → o = PredominantlyNegative) ∧
    (p = n → o = Mixed) ∧
    (p = 4%nat → n = 3%nat →
     o = PredominantlyPositive ∧
     last lines = Some (Conclusion Balanced company_name)).
Proof.
  intros Hgen c p n.
  destruct (report_shape _ _ _ _ Hgen) as (closes & market & Hpos & _ & Hmarket & ->).
  fold c. subst p n. exists (majority (positive_count c) (negative_count c)).
  split.
  { intros o'. rewrite <- overall_sentiment_majority_rule.
    by apply (fixed_lines_elem _ _ _ _ _ _ _ _ _ Hmarket). }
  split; [|split; [|split]].
  - intros Hlt. unfold majority.
    by destruct (Nat.compare_spec (positive_count c) (negative_count c)); [lia| lia|].
  - intros Hlt. unfold majority.
    by destruct (Nat.compare_spec (positive_count c) (negative_count c)); [lia| |lia].
  - intros Heq. unfold majority.
    by destruct (Nat.compare_spec (positive_count c) (negative_count c)); [|lia|lia].
  - intros Hp Hn. split; [by rewrite Hp, Hn|].
    rewrite summary_lines_last. do 2 f_equal.
    rewrite conclusion_ratio_rule by lia. by rewrite Hp, Hn.
Qed.

Lemma overall_header_majority_witness :
  let an := Sample.tcs_seven in
  let lines := Sample.lines_of (generate_summary Sample.word_polarity an "TCS") in
  generate_summary Sample.word_polarity an "TCS" = Returns (Report lines) ∧
  OverallSentiment PredominantlyPositive ∈ lines ∧
  last lines = Some (Conclusion Balanced "TCS").
Proof.
  intros an lines.
  assert (generate_summary Sample.word_polarity an "TCS" = Returns (Report lines))
    as H by (vm_compute; reflexivity).
  split; [exact H|].
  destruct (overall_header_majority Sample.word_polarity an "TCS" lines H)
    as (o & Ho & _ & _ & _ & H43).
  destruct H43 as [-> Hlast]; [reflexivity|reflexivity|].
  split; [by apply Ho|exact Hlast].
Defined.



(** ** Text and topics *)



Lemma prefix_spec k t : String.prefix k t = true ↔ ∃ suf, t = k +:+ suf.
Proof.
  revert k. induction t as [|c' t IH]; intros [|c k]; cbn.
  - split; [|done]. intros _. by exists "".
  - split; [done|]. by intros (suf & [=]).
  - split; [|done]. intros _. by exists (String c' t).
  - destruct (ascii_dec c c') as [->|Hne].
    + rewrite IH. split.
      * intros (suf & ->). by exists suf.
      * intros (suf & [= ->]). by exists suf.
    + split; [done|]. intros (suf & [= ? ?]). done.
Qed.









Lemma market_context_total closes :
  ∃ market, market_context_lines (Some closes) = Returns market.
Proof.
  destruct (decide (length closes < 2)%nat) as [Hs|Hl].
  - rewrite market_context_short by done. eauto.
  - destruct (two_closes closes) as (f & p & c & ->); [lia|].
    rewrite market_context_long. eauto.
Qed.

(** C5: when the ladder yields no article, [fetch_news] returns false and
    leaves the analyzer without articles, [generate_summary] returns the
    no-articles message and [main] stops before the summary; the division
    by the number of articles, which would raise, is not reached.  An
    analyzer without articles gets the message whatever else it holds, and
    [generate_summary] never raises a division error. *)
Theorem no_articles_no_division polarity ticker history company_name requests_get :
  let an := fetch_stock_data (init ticker NEWS_API_KEY) history in
  collect an company_name requests_get = [] →
  fetch_news an company_name requests_get = (false, an) ∧
  news_articles (fetch_news an company_name requests_get).2 = [] ∧
  generate_summary polarity (fetch_news an company_name requests_get).2
    company_name = Returns NoArticles ∧
  analyze polarity ticker company_name history requests_get = CannotProceed ∧
  (∀ count,
     percent count
       (length (news_articles (fetch_news an company_name requests_get).2)) =
     Raises ZeroDivisionError) ∧
  (∀ an', news_articles an' = [] →
          generate_summary polarity an' company_name = Returns NoArticles) ∧
  (∀ an', generate_summary polarity an' company_name ≠ Raises ZeroDivisionError).
Proof.
  intros an Hnone.
  assert (fetch_news an company_name requests_get = (false, an)) as Hfetch.
  { by rewrite fetch_news_collect, Hnone. }
  split; [done|]. rewrite Hfetch. cbn [snd].
  split; [done|]. split; [done|]. split.
  { unfold analyze. fold an. by rewrite Hfetch. }
  split; [done|]. split.
  { intros an' Hnil. unfold generate_summary. by rewrite Hnil. }
  intros an'. unfold generate_summary.
  destruct (news_articles an') as [|a rest]; [done|].
  rewrite !percent_returns by (simpl; lia). cbn [bind].
  destruct (stock_data an') as [closes|]; [|done].
  destruct (market_context_total closes) as [market ->]. done.
Qed.

Lemma no_articles_no_division_witness :
  let an := fetch_stock_data (init "TCS.NS" NEWS_API_KEY) [100; 105]%float in
  collect an "TCS" Sample.every_query_raises = [] ∧
  fetch_news an "TCS" Sample.every_query_raises = (false, an) ∧
  analyze Sample.word_polarity "TCS.NS" "TCS" [100; 105]%float
    Sample.every_query_raises = CannotProceed.
Proof.
  intros an.
  assert (collect an "TCS" Sample.every_query_raises = []) as H by reflexivity.
  split; [exact H|].
  destruct (no_articles_no_division Sample.word_polarity "TCS.NS"
              [100; 105]%float "TCS" Sample.every_query_raises H)
    as (Hfetch & _ & _ & Hmain & _).
  split; [exact Hfetch|exact Hmain].
Defined.

(** ** Sentiment of one article *)

(** The buckets by the fixed thresholds, in both places that classify. *)
Lemma classify_thresholds sentiment :
  (classify sentiment = Positive ↔
   (0x1.999999999999ap-4 <? sentiment)%float = true) ∧
  (classify sentiment = Negative ↔
   (0x1.999999999999ap-4 <? sentiment)%float = false ∧
   (sentiment <? - 0x1.999999999999ap-4)%float = true) ∧
  (classify sentiment = Neutral ↔
   (0x1.999999999999ap-4 <? sentiment)%float = false ∧
   (sentiment <? - 0x1.999999999999ap-4)%float = false).
Proof.
  unfold classify.
  destruct (0x1.999999999999ap-4 <? sentiment)%float;
    destruct (sentiment <? - 0x1.999999999999ap-4)%float;
    repeat split; intros; try done; by destruct_and?.
Qed.

Lemma display_text_differs a : display_text a ≠ summary_text a.
Proof.
  unfold display_text, summary_text. intros Heq.
  apply (inj (String.app _)) in Heq. discriminate Heq.
Qed.

(** C2 at the failing input: [generate_summary] scores the title and the
    description joined by a full stop and a space, the display of [main]
    scores them joined by a space only, for every article; with a scorer
    for which the full stop matters, the article "Not" / "good" is counted
    as positive in the summary and labelled negative in the display. *)
Theorem display_scores_other_text :
  (∀ a, display_text a ≠ summary_text a) ∧
  summary_text Sample.not_good = "Not. good" ∧
  display_text Sample.not_good = "Not good" ∧
  summary_bucket Sample.negation_polarity Sample.not_good = Positive ∧
  sent_label Sample.negation_polarity Sample.not_good = Negative ∧
  ∃ lines,
    analyze Sample.negation_polarity "TCS.NS" "TCS" [100; 105]%float
      (λ _ _, Body (Some "ok") (Some [Sample.not_good])) =
    Analysis (Report lines) Negative [Negative] ∧
    PositiveArticles 1 100 ∈ lines ∧ NegativeArticles 0 0 ∈ lines.
Proof.
  split; [apply display_text_differs|].
  repeat (split; [by vm_compute|]).
  eexists. split; [by vm_compute|].
  split; [do 4 right; by left|do 5 right; by left].
Qed.

(** ** The testable properties of the specification, on sample runs *)

(** Two batches that share two urls: the shared articles are held once, in
    first-seen order. *)
Example dedup_two_batches :
  let first := Sample.numbered "a" "Orders surge" 3 in
  let second := drop 1 first ++ Sample.numbered "b" "Margins slump" 2 in
  let source : NewsSource :=
    λ i _, match i with
           | 0%nat => Body (Some "ok") (Some first)
           | 1%nat => Body (Some "error") (Some second)
           | 2%nat => Body (Some "ok") (Some second)
           | _ => RequestRaised
           end in
  news_articles (fetch_news Sample.tcs "TCS" source).2 =
  first ++ Sample.numbered "b" "Margins slump" 2.
Proof. by vm_compute. Qed.

(** The cap: of 25 distinct articles the first 20 are held, and the later
    queries are not looked at. *)
Example cap_of_twenty :
  let source : NewsSource :=
    λ i _, match i with
           | 0%nat => Body (Some "ok") (Some (Sample.numbered "a" "Orders surge" 25))
           | _ => Body (Some "ok") (Some (Sample.numbered "b" "Margins slump" 5))
           end in
  news_articles (fetch_news Sample.tcs "TCS" source).2 =
  Sample.numbered "a" "Orders surge" 20.
Proof. by vm_compute. Qed.

Example closing_2_10 :
  last (Sample.lines_of
          (generate_summary Sample.word_polarity
             (Sample.fetched (Sample.mixed 2 10 0)) "TCS")) =
  Some (Conclusion Concerning "TCS").
Proof. by vm_compute. Qed.

Example closing_5_5_5 :
  last (Sample.lines_of
          (generate_summary Sample.word_polarity
             (Sample.fetched (Sample.mixed 5 5 5)) "TCS")) =
  Some (Conclusion Balanced "TCS").
Proof. by vm_compute. Qed.

(** A series of one close: the summary is produced without price lines. *)
Example one_close_no_price_lines :
  ∃ lines,
    generate_summary Sample.word_polarity
      (fetch_stock_data (Sample.fetched (Sample.mixed 1 0 0)) [100%float])
      "TCS" = Returns (Report lines) ∧
    lines =
      [ Header "TCS" "TCS.NS"; AnalysisPeriod 1;
        OverallSentiment PredominantlyPositive; BreakdownHeading;
        PositiveArticles 1 100; NegativeArticles 0 0; NeutralArticles 0 0;
        TopicsHeading; TopicMentions "growth" 1; TopicMentions "market" 1;
        HighlightsHeading; Highlight 1 "2025-01-15" "Orders surge";
        MarketContextHeading; ConclusionHeading;
        Conclusion StronglyPositive "TCS" ].
Proof. eexists. split; by vm_compute. Qed.

(** * Further properties of the program *)

(** ** [str.replace] and [str.strip] as the program uses them *)

Lemma app_cons c (s t : string) : String c s +:+ t = String c (s +:+ t).
Proof. reflexivity. Qed.

Lemma app_empty_l (t : string) : "" +:+ t = t.
Proof. reflexivity. Qed.

Lemma app_empty_r (s : string) : s +:+ "" = s.
Proof. induction s as [|c s IH]; [done|]. by rewrite app_cons, IH. Qed.

Lemma app_length (s t : string) :
  String.length (s +:+ t) = (String.length s + String.length t)%nat.
Proof.
  induction s as [|c s IH]; [done|]. rewrite app_cons. simpl. by rewrite IH.
Qed.

Lemma replace_from_skipped old new s k :
  (String.length s ≤ k)%nat → replace_from old new s k = "".
Proof.
  revert k. induction s as [|c s IH]; intros k Hk; simpl; [done|].
  simpl in Hk. destruct k as [|k]; [lia|]. apply IH. lia.
Qed.

Lemma replace_from_delete_length old s k :
  (String.length (replace_from old "" s k) ≤ String.length s)%nat.
Proof.
  revert k. induction s as [|c s IH]; intros k; [done|].
  cbn [replace_from]. destruct k as [|k].
  - destruct (String.prefix old (String c s)).
    + rewrite app_empty_l. specialize (IH (String.length old - 1)%nat).
      simpl. lia.
    + specialize (IH 0%nat). simpl. lia.
  - specialize (IH k). simpl. lia.
Qed.

Lemma prefix_refl (s t : string) : String.prefix s (s +:+ t) = true.
Proof. apply prefix_spec. by exists t. Qed.

Lemma replace_absent old new s :
  contains old s = false → replace old new s = s.
Proof.
  unfold replace. induction s as [|c s IH]; [done|].
  cbn [contains replace_from]. intros [Hp Hc]%orb_false_iff.
  rewrite Hp. f_equal. by apply IH.
Qed.

Lemma replace_suffix c0 rest new pre :
  char_free c0 pre = true →
  replace (String c0 rest) new (pre +:+ String c0 rest) = pre +:+ new.
Proof.
  intros Hfree. unfold replace. induction pre as [|c pre IH].
  - rewrite !app_empty_l. cbn [replace_from].
    pose proof (prefix_refl (String c0 rest) "") as Hp.
    rewrite app_empty_r in Hp. rewrite Hp.
    rewrite replace_from_skipped by (simpl; lia).
    by rewrite app_empty_r.
  - cbn [char_free] in Hfree. apply andb_true_iff in Hfree as [Hne Hfree].
    rewrite !app_cons. cbn [replace_from String.prefix].
    destruct (ascii_dec c0 c) as [->|_].
    + by rewrite Ascii.eqb_refl in Hne.
    + f_equal. by apply IH.
Qed.

(** X16: a replacement whose pattern does not occur leaves the string as it
    is, and a deletion ([new] empty) never makes the string longer. *)
Theorem replace_absent_or_shorter old new s :
  (contains old s = false → replace old new s = s) ∧
  (String.length (replace old "" s) ≤ String.length s)%nat.
Proof. split; [apply replace_absent|apply replace_from_delete_length]. Qed.

(** X17: the suffix round trip of the short ticker: when the first
    character of the pattern does not occur before it, replacing the
    pattern at the end of the string replaces exactly that occurrence; so a
    ticker [pre.NS] without another dot has the short form [pre], and the
    short form with the suffix is the ticker again. *)
Theorem replace_at_end c0 rest new pre :
  char_free c0 pre = true →
  replace (String c0 rest) new (pre +:+ String c0 rest) = pre +:+ new ∧
  (c0 = "."%char → rest = "NS" →
   replace ".NS" "" (pre +:+ ".NS") +:+ ".NS" = pre +:+ ".NS").
Proof.
  intros Hfree. split; [by apply replace_suffix|].
  intros -> ->. by rewrite replace_suffix, app_empty_r.
Qed.

Lemma replace_at_end_witness :
  char_free "." "M&M" = true ∧ replace ".NS" "" "M&M.NS" = "M&M".
Proof.
  split; [reflexivity|].
  exact (proj1 (replace_at_end "."%char "NS" "" "M&M" eq_refl)).
Defined.

Lemma lstrip_spec s :
  ∃ l, s = l +:+ lstrip s ∧ all_space l = true ∧
       ∀ c, first_char (lstrip s) = Some c → is_space c = false.
Proof.
  induction s as [|a s (l & Hs & Hl & Hfirst)].
  - by exists "".
  - cbn [lstrip]. destruct (is_space a) eqn:Ea.
    + exists (String a l). rewrite app_cons, <- Hs. cbn [all_space].
      by rewrite Ea, Hl.
    + exists "". split; [done|]. split; [done|].
      by intros c [= <-].
Qed.

Lemma rstrip_spec s :
  ∃ r, s = rstrip s +:+ r ∧ all_space r = true ∧
       ∀ c, last_char (rstrip s) = Some c → is_space c = false.
Proof.
  induction s as [|a s (r & Hs & Hr & Hlast)].
  - by exists "".
  - cbn [rstrip]. destruct (rstrip s) as [|d t] eqn:Et.
    + rewrite app_empty_l in Hs. subst r.
      destruct (is_space a) eqn:Ea.
      * exists (String a s). cbn [all_space]. by rewrite Ea, Hr.
      * exists s. split; [done|]. split; [done|]. by intros c [= <-].
    + exists r. rewrite app_cons, <- Hs. split; [done|]. split; [done|].
      exact Hlast.
Qed.

Lemma last_char_lstrip t c :
  last_char (lstrip t) = Some c → last_char t = Some c.
Proof.
  induction t as [|a t IH]; [done|]. cbn [lstrip].
  destruct (is_space a); [|done].
  intros H. specialize (IH H). cbn [last_char].
  by destruct t.
Qed.

Lemma lstrip_fixed t :
  (∀ c, first_char t = Some c → is_space c = false) → lstrip t = t.
Proof.
  destruct t as [|a t]; [done|]. intros H. cbn [lstrip].
  by rewrite (H a).
Qed.

Lemma rstrip_fixed t :
  (∀ c, last_char t = Some c → is_space c = false) → rstrip t = t.
Proof.
  induction t as [|a t IH]; [done|]. intros H. cbn [rstrip].
  destruct t as [|b t].
  - cbn. by rewrite (H a).
  - rewrite IH by (intros c Hc; by apply H). done.
Qed.

Lemma strip_ends s :
  (∀ c, first_char (strip s) = Some c → is_space c = false) ∧
  (∀ c, last_char (strip s) = Some c → is_space c = false).
Proof.
  unfold strip. split.
  - by destruct (lstrip_spec (rstrip s)) as (l & _ & _ & H).
  - intros c Hc%last_char_lstrip.
    destruct (rstrip_spec s) as (r & _ & _ & H). by apply H.
Qed.

Lemma strip_length s : (String.length (strip s) ≤ String.length s)%nat.
Proof.
  unfold strip.
  destruct (rstrip_spec s) as (r & Hs & _).
  destruct (lstrip_spec (rstrip s)) as (l & Hl & _).
  rewrite Hs at 2. rewrite Hl at 2. rewrite !app_length. lia.
Qed.

(** X18: [strip] cuts whitespace and only whitespace, from both ends and
    nowhere else: the string is a run of whitespace, the stripped string
    and a run of whitespace; the stripped string neither starts nor ends
    with a whitespace; stripping again changes nothing. *)
Theorem strip_spec s :
  (∃ l r, s = l +:+ strip s +:+ r ∧ all_space l = true ∧ all_space r = true) ∧
  (∀ c, first_char (strip s) = Some c → is_space c = false) ∧
  (∀ c, last_char (strip s) = Some c → is_space c = false) ∧
  strip (strip s) = strip s.
Proof.
  destruct (strip_ends s) as [Hfirst Hlast].
  split; [|split; [done|split; [done|]]].
  - unfold strip.
    destruct (rstrip_spec s) as (r & Hs & Hr & _).
    destruct (lstrip_spec (rstrip s)) as (l & Hl & Hlsp & _).
    exists l, r. split; [|done].
    rewrite Hs at 1. rewrite Hl at 1.
    clear. induction l as [|c l IH]; [done|]. by rewrite !app_cons, IH.
  - unfold strip at 1. rewrite (rstrip_fixed (strip s)) by done.
    by apply lstrip_fixed.
Qed.

(** X19: for an exchange ticker [pre.NS] whose stem has no dot, no
    "Limited", no "Ltd" and no outer whitespace, both fallbacks of
    [get_company_name] (the lookup raised; the lookup has no long name) give
    the stem. *)
Theorem get_company_name_fallbacks pre e :
  char_free "." pre = true →
  contains "Limited" pre = false →
  contains "Ltd" pre = false →
  strip pre = pre →
  get_company_name (pre +:+ ".NS") (Raises e) = pre ∧
  get_company_name (pre +:+ ".NS") (Returns None) = pre.
Proof.
  intros Hdot Hlimited Hltd Hstrip. unfold get_company_name, get.
  rewrite (replace_suffix "."%char "NS" "" pre Hdot), app_empty_r.
  split; [done|].
  by rewrite (replace_absent "Limited"), (replace_absent "Ltd").
Qed.

Lemma get_company_name_fallbacks_witness :
  get_company_name "HDFCBANK.NS" (Raises TypeError) = "HDFCBANK" ∧
  get_company_name "HDFCBANK.NS" (Returns None) = "HDFCBANK".
Proof.
  apply (get_company_name_fallbacks "HDFCBANK" TypeError); reflexivity.
Defined.

(** X20: when the lookup succeeds the name has no whitespace at its ends
    and is not longer than the long name (or the short ticker) it was made
    from; when the lookup raises the name is not longer than the ticker. *)
Theorem get_company_name_clean ticker longName e :
  let raw := get longName (replace ".NS" "" ticker) in
  let name := get_company_name ticker (Returns longName) in
  (∀ c, first_char name = Some c → is_space c = false) ∧
  (∀ c, last_char name = Some c → is_space c = false) ∧
  (String.length name ≤ String.length raw)%nat ∧
  (String.length (get_company_name ticker (Raises e)) ≤ String.length ticker)%nat.
Proof.
  intros raw name. subst name. cbn [get_company_name]. fold raw.
  destruct (strip_ends (replace "Ltd" "" (replace "Limited" "" raw)))
    as [Hfirst Hlast].
  split; [done|]. split; [done|]. split.
  - etransitivity; [apply strip_length|].
    etransitivity; apply replace_from_delete_length.
  - apply replace_from_delete_length.
Qed.

(** The listed tickers: 28 of them, all different, each with both
    fallbacks equal to the ticker without its suffix. *)
Example SECTORS_tickers :
  let tickers := concat (snd <$> SECTORS) in
  length tickers = 28%nat ∧ NoDup tickers ∧
  Forall
    (λ t, get_company_name t (Returns None) +:+ ".NS" = t ∧
          get_company_name t (Raises TypeError) +:+ ".NS" = t)
    tickers.
Proof.
  cbv zeta. split; [done|]. split.
  - apply (bool_decide_unpack _). by vm_compute.
  - apply (bool_decide_unpack _). by vm_compute.
Qed.

(** The long names of yfinance lose "Limited" and "Ltd" and the whitespace
    left around. *)
Example get_company_name_long_names :
  get_company_name "TCS.NS" (Returns (Some "Tata Consultancy Services Limited")) =
    "Tata Consultancy Services" ∧
  get_company_name "ITC.NS" (Returns (Some " ITC Ltd ")) = "ITC" ∧
  get_company_name "LT.NS" (Returns (Some "Larsen & Toubro Limited")) =
    "Larsen & Toubro".
Proof. by vm_compute. Qed.

(** ** More on the fetch loop *)

Section FetchLoop.
Import Fetch.

Lemma for_query_app pre post st :
  for_query (pre ++ post) st = for_query post (for_query pre st).
Proof.
  revert st. induction pre as [|r pre IH]; intros st; [done|].
  rewrite <- app_comm_cons, !for_query_cons.
  destruct (Nat.leb_spec 20 (length (all_articles st))) as [Hfull|_].
  - by rewrite for_query_full.
  - apply IH.
Qed.

Lemma imap_take_ext {A B} (f g : nat → A → B) (l : list A) k :
  (∀ i x, (i < k)%nat → f i x = g i x) →
  take k (imap f l) = take k (imap g l).
Proof.
  revert f g k. induction l as [|x l IH]; intros f g k Hext; [done|].
  destruct k as [|k]; [done|].
  rewrite !imap_cons. cbn [take]. rewrite Hext by lia. f_equal.
  apply IH. intros i y Hi. apply Hext. lia.
Qed.

Lemma for_article_grows l st :
  all_articles st `prefix_of` all_articles (for_article l st) ∧
  seen_urls st ⊆ seen_urls (for_article l st).
Proof.
  revert st. induction l as [|a l IH]; intros st; [done|].
  rewrite for_article_cons.
  destruct (admissible (seen_urls st) a); [|apply IH]. cbv zeta.
  assert (all_articles st `prefix_of` all_articles st ++ [a]) as Hp
    by (by exists [a]).
  assert (seen_urls st ⊆ {[url_of a]} ∪ seen_urls st) as Hs
    by apply union_subseteq_r.
  destruct (20 <=? _)%nat; [done|].
  destruct (IH {| all_articles := all_articles st ++ [a];
                  seen_urls := {[url_of a]} ∪ seen_urls st |}) as [IH1 IH2].
  split; [by etransitivity|by etransitivity].
Qed.

Lemma try_query_grows r st :
  all_articles st `prefix_of` all_articles (try_query r st) ∧
  seen_urls st ⊆ seen_urls (try_query r st).
Proof.
  destruct r as [|status articles]; simpl; [done|].
  case_bool_decide; [apply for_article_grows|done].
Qed.

Lemma for_query_grows_from rs st :
  all_articles st `prefix_of` all_articles (for_query rs st) ∧
  seen_urls st ⊆ seen_urls (for_query rs st).
Proof.
  revert st. induction rs as [|r rs IH]; intros st; [done|].
  rewrite for_query_cons. destruct (20 <=? _)%nat; [done|].
  destruct (try_query_grows r st) as [H1 H2].
  destruct (IH (try_query r st)) as [H3 H4].
  split; by etransitivity.
Qed.

Lemma urls_snoc l a : urls (l ++ [a]) = {[url_of a]} ∪ urls l.
Proof.
  unfold urls. rewrite fmap_app, list_to_set_app_L. simpl.
  apply set_eq. intros x.
  rewrite !elem_of_union, elem_of_singleton, elem_of_empty. tauto.
Qed.

Lemma for_article_seen l st :
  seen_urls st = urls (all_articles st) →
  seen_urls (for_article l st) = urls (all_articles (for_article l st)).
Proof.
  revert st. induction l as [|a l IH]; intros st Hinv; [done|].
  rewrite for_article_cons.
  destruct (admissible (seen_urls st) a); [|by apply IH]. cbv zeta.
  assert ({[url_of a]} ∪ seen_urls st = urls (all_articles st ++ [a])) as Hnew
    by (by rewrite urls_snoc, Hinv).
  destruct (20 <=? _)%nat; [done|]. by apply IH.
Qed.

Lemma for_query_seen rs st :
  seen_urls st = urls (all_articles st) →
  seen_urls (for_query rs st) = urls (all_articles (for_query rs st)).
Proof.
  revert st. induction rs as [|r rs IH]; intros st Hinv; [done|].
  rewrite for_query_cons. destruct (20 <=? _)%nat; [done|].
  apply IH. destruct r as [|status articles]; simpl; [done|].
  case_bool_decide; [by apply for_article_seen|done].
Qed.

Lemma elem_of_urls u l : u ∈ urls l ↔ ∃ a, a ∈ l ∧ url_of a = u.
Proof.
  unfold urls. rewrite elem_of_list_to_set, list_elem_of_fmap.
  split; intros (a & H1 & H2); exists a; by split.
Qed.

Lemma accepted_covers seen l a :
  a ∈ l → has_url a → url_of a ∈ urls (accepted seen l) ∪ seen.
Proof.
  revert seen. induction l as [|b l IH]; intros seen; [by intros ?%elem_of_nil|].
  intros Hin Hu. cbn [accepted].
  destruct (admissible seen b) eqn:E.
  - apply elem_of_cons in Hin as [->|Hin].
    + apply elem_of_union. left. apply elem_of_urls. exists b. split; [by left|done].
    + specialize (IH ({[url_of b]} ∪ seen) Hin Hu).
      apply elem_of_union in IH as [IH|IH].
      * apply elem_of_union. left. apply elem_of_urls.
        apply elem_of_urls in IH as (c & Hc & Huc). exists c. split; [by right|done].
      * apply elem_of_union in IH as [IH|IH].
        -- apply elem_of_singleton in IH. apply elem_of_union. left.
           apply elem_of_urls. exists b. split; [by left|done].
        -- apply elem_of_union. by right.
  - apply elem_of_cons in Hin as [->|Hin]; [|by apply IH].
    apply admissible_false in E as [E|E]; [done|].
    apply elem_of_union. by right.
Qed.

Lemma for_article_none l st :
  (∀ a, a ∈ l → admissible (seen_urls st) a = false) → for_article l st = st.
Proof.
  induction l as [|a l IH]; intros Hnone; [done|].
  rewrite for_article_cons, Hnone by (by left).
  apply IH. intros b Hb. apply Hnone. by right.
Qed.

(** A response that was just processed has nothing left to give. *)
Lemma try_query_again r st :
  (length (all_articles st) < 20)%nat →
  (length (all_articles (try_query r st)) < 20)%nat →
  try_query r (try_query r st) = try_query r st.
Proof.
  intros Hlen Hlen'.
  destruct (try_query_spec r st Hlen) as [_ Hspec].
  destruct (Hspec Hlen') as [_ Hseen].
  destruct r as [|status articles]; [done|].
  cbn [try_query] in *. case_bool_decide as Hok; [|done].
  cbn [batch] in Hseen. rewrite bool_decide_true in Hseen by done.
  apply for_article_none. intros a Ha.
  apply admissible_false.
  destruct (decide (has_url a)) as [Hu|Hu]; [right|by left].
  rewrite Hseen. by apply accepted_covers.
Qed.

End FetchLoop.

(** X1: once the first [k] queries of the ladder have given 20 articles,
    what the later queries return does not matter: two providers that agree
    on the first [k] requests give the same fetch. *)
Theorem fetch_news_stops_at_cap an company_name (requests_get requests_get' : NewsSource) k :
  (∀ i q, (i < k)%nat → requests_get' i q = requests_get i q) →
  length (Fetch.all_articles
            (Fetch.for_query (take k (ladder an company_name requests_get))
               Fetch.start)) = 20%nat →
  fetch_news an company_name requests_get' =
  fetch_news an company_name requests_get.
Proof.
  intros Hagree Hfull.
  assert (∀ g : NewsSource,
            (∀ i q, (i < k)%nat → g i q = requests_get i q) →
            collect an company_name g =
            Fetch.all_articles
              (Fetch.for_query (take k (ladder an company_name requests_get))
                 Fetch.start)) as Hcollect.
  { intros g Hg. unfold collect.
    rewrite <- (take_drop k (ladder an company_name g)), for_query_app.
    unfold ladder at 2, responses.
    rewrite (imap_take_ext g requests_get _ k Hg).
    fold (responses requests_get
            (search_queries company_name (replace ".NS" "" (ticker an)))).
    fold (ladder an company_name requests_get).
    by rewrite for_query_full by lia. }
  rewrite !fetch_news_collect.
  by rewrite (Hcollect requests_get'), (Hcollect requests_get).
Qed.

Lemma fetch_news_stops_at_cap_witness :
  let first : NewsSource :=
    λ i _, match i with
           | O => Body (Some "ok") (Some (Sample.numbered "a" "Orders surge" 25))
           | S _ => RequestRaised
           end in
  let other : NewsSource :=
    λ i _, match i with
           | O => Body (Some "ok") (Some (Sample.numbered "a" "Orders surge" 25))
           | S _ => Body (Some "ok") (Some Sample.seven)
           end in
  fetch_news Sample.tcs "TCS" other = fetch_news Sample.tcs "TCS" first.
Proof.
  intros first other.
  apply (fetch_news_stops_at_cap Sample.tcs "TCS" first other 1).
  - intros i q Hi. destruct i as [|i]; [reflexivity|lia].
  - by vm_compute.
Defined.

(** X2: the loop over the queries only appends: what it holds after a part
    of the ladder is a prefix of what it holds after the whole ladder, and
    no seen url is forgotten. *)
Theorem for_query_only_appends pre post st :
  Fetch.all_articles (Fetch.for_query pre st) `prefix_of`
    Fetch.all_articles (Fetch.for_query (pre ++ post) st) ∧
  Fetch.seen_urls (Fetch.for_query pre st) ⊆
    Fetch.seen_urls (Fetch.for_query (pre ++ post) st).
Proof. rewrite for_query_app. apply for_query_grows_from. Qed.

(** X3: the set of seen urls is kept in step with the held articles: at the
    exit of the loop it is the set of their urls, it has one url per held
    article, and the empty url is not in it. *)
Theorem seen_urls_of_held rs :
  let st := Fetch.for_query rs Fetch.start in
  Fetch.seen_urls st = urls (Fetch.all_articles st) ∧
  size (Fetch.seen_urls st) = length (Fetch.all_articles st) ∧
  "" ∉ Fetch.seen_urls st.
Proof.
  intros st.
  assert (Fetch.seen_urls st = urls (Fetch.all_articles st)) as Hinv.
  { apply for_query_seen. unfold urls. simpl. done. }
  split; [done|]. rewrite Hinv. subst st. rewrite for_query_aggregate. split.
  - unfold urls. rewrite size_list_to_set by apply aggregate_NoDup.
    by rewrite length_fmap.
  - intros (a & Ha & Hu)%elem_of_urls.
    by apply aggregate_elem in Ha as [Hurl _].
Qed.

(** X4: a response met twice in a row gives nothing the second time: the
    loop over the queries ends in the same state as if it were met once. *)
Theorem for_query_repeated r pre post st :
  Fetch.for_query (pre ++ r :: r :: post) st =
  Fetch.for_query (pre ++ r :: post) st.
Proof.
  rewrite !for_query_app. generalize (Fetch.for_query pre st). clear st.
  intros st. rewrite !(for_query_cons r).
  destruct (Nat.leb_spec 20 (length (Fetch.all_articles st))) as [|Hlen]; [done|].
  destruct (Nat.leb_spec 20 (length (Fetch.all_articles (Fetch.try_query r st))))
    as [Hfull|Hlen'].
  - by rewrite for_query_full.
  - by rewrite try_query_again.
Qed.

(** X5: [fetch_news] touches the held articles only.  On success the
    collected articles replace what was held before (nothing is merged) and
    are not empty; on failure the analyzer is exactly what it was, with the
    articles it held before. *)
Theorem fetch_news_frame an company_name requests_get :
  let result := fetch_news an company_name requests_get in
  ticker result.2 = ticker an ∧
  news_api_key result.2 = news_api_key an ∧
  stock_data result.2 = stock_data an ∧
  (result.1 = true →
   news_articles result.2 = collect an company_name requests_get ∧
   news_articles result.2 ≠ []) ∧
  (result.1 = false →
   result.2 = an ∧ collect an company_name requests_get = []).
Proof.
  cbv zeta. rewrite fetch_news_collect.
  destruct (collect an company_name requests_get); cbn; repeat split; done.
Qed.

(** X6: every collected article carries a url and comes from a query of
    the ladder that did not fail. *)
Theorem collected_from_ok_responses an company_name requests_get :
  Forall
    (λ a, has_url a ∧
          ∃ r, r ∈ ladder an company_name requests_get ∧ ¬ failed r ∧
               a ∈ batch r)
    (collect an company_name requests_get).
Proof.
  apply Forall_forall. intros a Ha. rewrite collect_aggregate in Ha.
  apply aggregate_elem in Ha as (Hu & l & Ha & (r & -> & Hr)%list_elem_of_fmap).
  split; [done|]. exists r. split; [done|]. split; [|done].
  intros Hfail. rewrite failed_batch in Ha by done. by apply elem_of_nil in Ha.
Qed.

(** X7: below the cap nothing is lost: when fewer than 20 articles are
    collected, every url-carrying article that a query returned has its url
    among the collected ones. *)
Theorem below_cap_nothing_lost an company_name requests_get :
  (length (collect an company_name requests_get) < 20)%nat →
  ∀ r a, r ∈ ladder an company_name requests_get → a ∈ batch r → has_url a →
         ∃ b, b ∈ collect an company_name requests_get ∧ url_of b = url_of a.
Proof.
  rewrite collect_aggregate. unfold aggregate. intros Hlen r a Hr Ha Hu.
  rewrite length_take in Hlen. rewrite take_ge by lia.
  apply first_seen_covers, list_elem_of_filter. split; [done|].
  apply elem_of_concat. exists (batch r). split; [done|].
  by apply list_elem_of_fmap_2.
Qed.

Lemma below_cap_nothing_lost_witness :
  (length (collect Sample.tcs "TCS" Sample.seven_source) < 20)%nat ∧
  ∃ b, b ∈ collect Sample.tcs "TCS" Sample.seven_source ∧
       url_of b = "https://news.example/7".
Proof.
  assert (length (collect Sample.tcs "TCS" Sample.seven_source) < 20)%nat as H
    by (vm_compute; lia).
  split; [exact H|].
  apply (below_cap_nothing_lost Sample.tcs "TCS" Sample.seven_source H
           (Body (Some "ok") (Some Sample.seven))
           (Sample.article "Demand slump" "https://news.example/7")).
  - apply elem_of_cons. right. by left.
  - cbn. rewrite bool_decide_true by done. cbn. do 6 right. by left.
  - by vm_compute.
Defined.

(** ** More on the summary *)


Lemma topic_lines_length articles :
  (1 ≤ length (topic_lines articles) ≤ 7)%nat.
Proof.
  unfold topic_lines.
  assert (∀ tl : list (string * nat),
            (length (flat_map (λ '(topic, count),
                       if (0 <? count)%nat then [TopicMentions topic count] else [])
                       tl) ≤ length tl)%nat) as Hflat.
  { induction tl as [|[t n] tl IH]; [done|].
    cbn [flat_map]. rewrite length_app.
    destruct (0 <? n)%nat; simpl; lia. }
  specialize (Hflat (topic_tally articles)).
  assert (length (topic_tally articles) = 7%nat) as H7 by done.
  destruct (flat_map _ _); simpl in *; lia.
Qed.

Lemma highlight_lines_length articles :
  length (highlight_lines articles) = min 5 (length articles).
Proof. unfold highlight_lines. by rewrite length_imap, length_take. Qed.

Lemma market_context_length closes market :
  market_context_lines (Some closes) = Returns market →
  (length closes < 2 ∧ market = [])%nat ∨
  (2 ≤ length closes ∧ length market = 2)%nat.
Proof.
  destruct (decide (length closes < 2)%nat) as [Hs|Hl].
  - rewrite market_context_short by done. intros [= <-]. by left.
  - destruct (two_closes closes) as (f & p & c & ->); [lia|].
    rewrite market_context_long. intros [= <-]. right. split; [lia|done].
Qed.

(** X9: the layout of a report: it opens with the header, the number of
    held articles, the overall sentiment and the breakdown heading; after
    the 12 lines that every report has come the topic lines (1 to 7), as
    many highlights as there are held articles, up to 5, and two price
    lines or none: between 14 and 26 lines in all. *)
Theorem report_layout polarity an company_name lines :
  generate_summary polarity an company_name = Returns (Report lines) →
  let c := count_sentiment polarity (news_articles an) (mkCounts 0 0 0) in
  let n := length (news_articles an) in
  take 4 lines =
    [ Header company_name (ticker an); AnalysisPeriod n;
      OverallSentiment (overall_sentiment c); BreakdownHeading ] ∧
  (∃ closes,
     stock_data an = Some closes ∧
     length lines =
       (12 + length (topic_lines (news_articles an)) + min 5 n +
        (if (1 <? length closes)%nat then 2 else 0))%nat) ∧
  (14 ≤ length lines ≤ 26)%nat.
Proof.
  intros Hgen c n.
  destruct (report_shape _ _ _ _ Hgen)
    as (closes & market & Hpos & Hdata & Hmarket & ->).
  fold c n in Hpos |- *. split; [done|].
  pose proof (topic_lines_length (news_articles an)) as Htopics.
  pose proof (highlight_lines_length (news_articles an)) as Hhigh.
  fold n in Hhigh.
  assert (length market = if (1 <? length closes)%nat then 2%nat else 0%nat)
    as Hlen.
  { destruct (market_context_length _ _ Hmarket) as [[Hs ->]|[Hl ->]];
      destruct (Nat.ltb_spec 1 (length closes)); done || lia. }
  unfold summary_lines. rewrite !length_app. cbn [length].
  rewrite Hhigh, Hlen. split.
  - exists closes. split; [done|]. lia.
  - destruct (1 <? length closes)%nat; lia.
Qed.

Lemma report_layout_witness :
  let lines :=
    Sample.lines_of (generate_summary Sample.word_polarity Sample.tcs_seven "TCS") in
  generate_summary Sample.word_polarity Sample.tcs_seven "TCS" =
    Returns (Report lines) ∧
  (14 ≤ length lines ≤ 26)%nat.
Proof.
  intros lines.
  assert (generate_summary Sample.word_polarity Sample.tcs_seven "TCS" =
          Returns (Report lines)) as H by (vm_compute; reflexivity).
  split; [exact H|].
  exact (proj2 (proj2 (report_layout Sample.word_polarity Sample.tcs_seven
                         "TCS" lines H))).
Defined.

Lemma str_take_length n s : (String.length (str_take n s) ≤ n)%nat.
Proof.
  unfold str_take. revert s. induction n as [|n IH]; intros s.
  - by destruct s.
  - destruct s as [|c s]; simpl; [lia|]. specialize (IH s). lia.
Qed.

Lemma highlight_lines_lookup articles i d t :
  Highlight i d t ∈ highlight_lines articles ↔
  ∃ a, (1 ≤ i ≤ 5)%nat ∧ articles !! (i - 1)%nat = Some a ∧
       d = str_take 10 (get (publishedAt a) "") ∧
       t = get (title a) "No title".
Proof.
  unfold highlight_lines. rewrite elem_of_lookup_imap. split.
  - intros (j & a & [= -> -> ->] & Hj).
    apply lookup_take_Some in Hj as [Hj Hlt].
    exists a. replace (j + 1 - 1)%nat with j by lia.
    repeat split; try done; lia.
  - intros (a & Hi & Ha & -> & ->). exists (i - 1)%nat, a.
    split; [f_equal; lia|]. apply lookup_take_Some. split; [done|lia].
Qed.

(** X10: the highlights of a report are the first held articles, five at
    most, in held order and numbered from 1; each shows the first 10
    characters of the publication time and the title, "No title" when the
    title is missing. *)
Theorem report_highlights polarity an company_name lines :
  generate_summary polarity an company_name = Returns (Report lines) →
  ∀ i d t,
    (Highlight i d t ∈ lines ↔
     ∃ a, (1 ≤ i ≤ 5)%nat ∧ news_articles an !! (i - 1)%nat = Some a ∧
          d = str_take 10 (get (publishedAt a) "") ∧
          t = get (title a) "No title") ∧
    (Highlight i d t ∈ lines → (String.length d ≤ 10)%nat).
Proof.
  intros Hgen i d t.
  destruct (report_shape _ _ _ _ Hgen)
    as (closes & market & Hpos & Hdata & Hmarket & ->).
  assert (Highlight i d t ∈
            summary_lines company_name (ticker an) (news_articles an)
              (count_sentiment polarity (news_articles an) (mkCounts 0 0 0))
              (float_of_int (positive_count (count_sentiment polarity (news_articles an) (mkCounts 0 0 0))) /
               float_of_int (length (news_articles an)) * 100)%float
              (float_of_int (negative_count (count_sentiment polarity (news_articles an) (mkCounts 0 0 0))) /
               float_of_int (length (news_articles an)) * 100)%float
              (float_of_int (neutral_count (count_sentiment polarity (news_articles an) (mkCounts 0 0 0))) /
               float_of_int (length (news_articles an)) * 100)%float
              market ↔
          Highlight i d t ∈ highlight_lines (news_articles an)) as Hiff.
  { rewrite summary_lines_elem. split; [|tauto].
    intros [H|[H|[H|H]]]; [| |done|].
    - rewrite !elem_of_cons, elem_of_nil in H. destruct_or! H; done.
    - apply topic_lines_elem in H as [H|(? & ? & H & _)]; done.
    - destruct (market_context_elem _ _ _ Hmarket H) as [? [?|?]]; done. }
  rewrite Hiff, highlight_lines_lookup. split; [done|].
  intros (a & _ & _ & -> & _). apply str_take_length.
Qed.

Lemma report_highlights_witness :
  let lines :=
    Sample.lines_of (generate_summary Sample.word_polarity Sample.tcs_seven "TCS") in
  generate_summary Sample.word_polarity Sample.tcs_seven "TCS" =
    Returns (Report lines) ∧
  Highlight 5 "2025-01-15" "Margins slump" ∈ lines ∧
  ¬ (∃ d t, Highlight 6 d t ∈ lines).
Proof.
  intros lines.
  assert (generate_summary Sample.word_polarity Sample.tcs_seven "TCS" =
          Returns (Report lines)) as H by (vm_compute; reflexivity).
  split; [exact H|].
  pose proof (report_highlights Sample.word_polarity Sample.tcs_seven "TCS"
                lines H) as Hhl.
  split.
  - apply (Hhl 5%nat).
    exists (Sample.article "Margins slump" "https://news.example/5").
    split; [lia|]. split; [by vm_compute|]. split; reflexivity.
  - intros (d & t & Hin). apply (Hhl 6%nat) in Hin as (a & Hi & _). lia.
Defined.







Lemma tally_comm c b1 b2 : tally (tally c b1) b2 = tally (tally c b2) b1.
Proof. destruct c, b1, b2; done. Qed.

Lemma count_sentiment_perm polarity l l' :
  l ≡ₚ l' → ∀ c, count_sentiment polarity l c = count_sentiment polarity l' c.
Proof.
  induction 1 as [|a l l' _ IH|a b l|l1 l2 l3 _ IH1 _ IH2]; intros c; simpl.
  - done.
  - apply IH.
  - by rewrite tally_comm.
  - by rewrite IH1, IH2.
Qed.

Lemma topic_count_perm keywords_list l l' :
  l ≡ₚ l' → topic_count keywords_list l = topic_count keywords_list l'.
Proof.
  induction 1 as [|a l l' _ IH|a b l|l1 l2 l3 _ IH1 _ IH2]; simpl.
  - done.
  - by rewrite IH.
  - by destruct (mentions keywords_list a), (mentions keywords_list b).
  - by rewrite IH1, IH2.
Qed.

Lemma topic_lines_perm l l' : l ≡ₚ l' → topic_lines l = topic_lines l'.
Proof.
  intros Hperm. unfold topic_lines, topic_tally.
  assert (map (λ '(topic, keywords_list), (topic, topic_count keywords_list l))
            keywords =
          map (λ '(topic, keywords_list), (topic, topic_count keywords_list l'))
            keywords) as ->; [|done].
  apply map_ext. intros [topic kws]. by rewrite (topic_count_perm kws l l').
Qed.

(** X12: the order of the held articles matters to the highlights only:
    two analyzers that hold the same articles in another order get reports
    with the same lines apart from the highlights (the same counts,
    percentages, header, topic lines, price lines and closing statement). *)
Theorem report_order_independent polarity an company_name articles' lines :
  news_articles an ≡ₚ articles' →
  generate_summary polarity an company_name = Returns (Report lines) →
  ∃ lines',
    generate_summary polarity (set_news_articles an articles') company_name =
      Returns (Report lines') ∧
    ∀ x, (∀ i d t, x ≠ Highlight i d t) → (x ∈ lines ↔ x ∈ lines').
Proof.
  intros Hperm Hgen.
  destruct (report_shape _ _ _ _ Hgen)
    as (closes & market & Hpos & Hdata & Hmarket & ->).
  destruct articles' as [|a' rest'].
  { apply Permutation_nil_r in Hperm. rewrite Hperm in Hpos. simpl in Hpos. lia. }
  destruct (generate_summary_returns polarity
              (set_news_articles an (a' :: rest')) company_name a' rest' closes
              eq_refl Hdata) as (market' & Hmarket' & Hret).
  rewrite Hmarket in Hmarket'. injection Hmarket' as <-.
  eexists. split; [exact Hret|].
  intros x Hx. cbn [news_articles set_news_articles ticker].
  rewrite <- (count_sentiment_perm polarity _ _ Hperm).
  rewrite <- (Permutation_length Hperm).
  rewrite !summary_lines_elem.
  rewrite <- (topic_lines_perm _ _ Hperm).
  rewrite <- (Permutation_length Hperm).
  split; (intros [H|[H|[H|H]]]; [by left|by right; left| |by do 3 right]);
    apply highlight_lines_elem in H as (i & d & t & ->); by destruct (Hx i d t).
Qed.

Lemma report_order_independent_witness :
  let an := Sample.tcs_seven in
  let lines :=
    Sample.lines_of (generate_summary Sample.word_polarity an "TCS") in
  news_articles an ≡ₚ reverse (news_articles an) ∧
  generate_summary Sample.word_polarity an "TCS" = Returns (Report lines) ∧
  ∃ lines',
    generate_summary Sample.word_polarity
      (set_news_articles an (reverse (news_articles an))) "TCS" =
      Returns (Report lines') ∧
    PositiveArticles 4 0x1.c924924924924p+5 ∈ lines'.
Proof.
  intros an lines.
  assert (news_articles an ≡ₚ reverse (news_articles an)) as H1
    by (symmetry; apply reverse_Permutation).
  assert (generate_summary Sample.word_polarity an "TCS" = Returns (Report lines))
    as H2 by (vm_compute; reflexivity).
  split; [exact H1|]. split; [exact H2|].
  destruct (report_order_independent Sample.word_polarity an "TCS" _ lines H1 H2)
    as (lines' & Hgen' & Hsame).
  exists lines'. split; [exact Hgen'|].
  apply Hsame; [done|]. apply list_elem_of_In. vm_compute.
  do 4 right. by left.
Defined.

(** X13: the header and the closing statement of a report on at most 20
    articles never contradict each other: a strongly positive closing comes
    with a predominantly positive header, a concerning closing with a
    predominantly negative header, and a mixed header with the balanced
    closing. *)
Theorem header_agrees_with_closing polarity an company_name lines :
  (length (news_articles an) ≤ 20)%nat →
  generate_summary polarity an company_name = Returns (Report lines) →
  (Conclusion StronglyPositive company_name ∈ lines →
   OverallSentiment PredominantlyPositive ∈ lines) ∧
  (Conclusion Concerning company_name ∈ lines →
   OverallSentiment PredominantlyNegative ∈ lines) ∧
  (OverallSentiment Mixed ∈ lines →
   Conclusion Balanced company_name ∈ lines).
Proof.
  intros Hcap Hgen.
  destruct (report_shape _ _ _ _ Hgen)
    as (closes & market & Hpos & Hdata & Hmarket & ->).
  set (c := count_sentiment polarity (news_articles an) (mkCounts 0 0 0)).
  pose proof (count_sentiment_total polarity (news_articles an) (mkCounts 0 0 0))
    as Hsum.
  simpl in Hsum. fold c in Hsum.
  destruct (fixed_lines_elem company_name (ticker an) (news_articles an) c
              (float_of_int (positive_count c) / float_of_int (length (news_articles an)) * 100)%float
              (float_of_int (negative_count c) / float_of_int (length (news_articles an)) * 100)%float
              (float_of_int (neutral_count c) / float_of_int (length (news_articles an)) * 100)%float
              closes market Hmarket) as (_ & _ & _ & Ho & Hc).
  cbv zeta in Ho, Hc.
  assert (conclusion c = ratio_rule (positive_count c) (negative_count c))
    as Hrule by (apply conclusion_ratio_rule; lia).
  pose proof (overall_sentiment_majority_rule c) as Hmaj.
  unfold ratio_rule in Hrule. unfold majority in Hmaj.
  split; [|split].
  - intros [Hk _]%Hc. apply Ho. rewrite Hmaj.
    rewrite Hrule in Hk.
    destruct (Nat.ltb_spec (3 * negative_count c) (2 * positive_count c));
      [|by destruct (3 * positive_count c <? 2 * negative_count c)%nat].
    by destruct (Nat.compare_spec (positive_count c) (negative_count c)); [lia|lia|].
  - intros [Hk _]%Hc. apply Ho. rewrite Hmaj.
    rewrite Hrule in Hk.
    destruct (Nat.ltb_spec (3 * negative_count c) (2 * positive_count c)); [done|].
    destruct (Nat.ltb_spec (3 * positive_count c) (2 * negative_count c)); [|done].
    by destruct (Nat.compare_spec (positive_count c) (negative_count c)); [lia| |lia].
  - intros Hk%Ho. apply Hc. split; [|done]. rewrite Hrule.
    rewrite Hmaj in Hk.
    destruct (Nat.compare_spec (positive_count c) (negative_count c)) as [Heq| |];
      [|done|done].
    destruct (Nat.ltb_spec (3 * negative_count c) (2 * positive_count c)); [lia|].
    by destruct (Nat.ltb_spec (3 * positive_count c) (2 * negative_count c)); [lia|].
Qed.

Lemma header_agrees_with_closing_witness :
  let an := Sample.fetched (Sample.mixed 10 2 3) in
  let lines :=
    Sample.lines_of (generate_summary Sample.word_polarity an "TCS") in
  (length (news_articles an) ≤ 20)%nat ∧
  generate_summary Sample.word_polarity an "TCS" = Returns (Report lines) ∧
  Conclusion StronglyPositive "TCS" ∈ lines ∧
  OverallSentiment PredominantlyPositive ∈ lines.
Proof.
  intros an lines.
  assert (length (news_articles an) ≤ 20)%nat as H1 by (vm_compute; lia).
  assert (generate_summary Sample.word_polarity an "TCS" = Returns (Report lines))
    as H2 by (vm_compute; reflexivity).
  split; [exact H1|]. split; [exact H2|].
  destruct (header_agrees_with_closing Sample.word_polarity an "TCS" lines H1 H2)
    as (Hsp & _ & _).
  assert (Conclusion StronglyPositive "TCS" ∈ lines) as Hin.
  { apply last_Some_elem_of. by vm_compute. }
  split; [exact Hin|exact (Hsp Hin)].
Defined.

Lemma percent_range_20 : percent_range_upto 20 = true.
Proof. vm_compute. reflexivity. Qed.

Lemma percent_range_upto_spec cap count total :
  percent_range_upto cap = true →
  (1 ≤ total ≤ cap)%nat → (count ≤ total)%nat →
  percent_range count total = true.
Proof.
  unfold percent_range_upto. intros H Htotal Hcount.
  apply (forallb_seq _ _ total) in H; [|lia].
  apply (forallb_seq _ _ count) in H; [|lia].
  apply orb_true_iff in H as [H|H]; [|exact H].
  apply orb_true_iff in H as [H|H].
  - apply Nat.eqb_eq in H. lia.
  - apply Nat.ltb_lt in H. lia.
Qed.

(** What [percent_range] says, for the totals up to 20. *)
Lemma reported_percent_range count total :
  (1 ≤ total ≤ 20)%nat → (count ≤ total)%nat →
  ∃ z z', reported_percent count total = Some z ∧
          reported_percent (count + 1) total = Some z' ∧
          (0 ≤ z ≤ 1000)%Z ∧ (z = 0%Z ↔ count = 0%nat) ∧
          (z = 1000%Z ↔ count = total) ∧
          ((count < total)%nat → (z ≤ z')%Z).
Proof.
  intros Htotal Hcount.
  pose proof (percent_range_upto_spec 20 count total percent_range_20 Htotal Hcount)
    as H.
  unfold percent_range in H.
  destruct (reported_percent count total) as [z|]; [|done].
  destruct (reported_percent (count + 1) total) as [z'|]; [|done].
  apply andb_true_iff in H as [H Hmono].
  apply andb_true_iff in H as [H Hfull].
  apply andb_true_iff in H as [H Hzero].
  apply andb_true_iff in H as [Hlo Hhi].
  apply Z.leb_le in Hlo, Hhi.
  apply bool_decide_eq_true in Hzero, Hfull.
  exists z, z'. repeat split; try done; try apply Hzero; try apply Hfull.
  intros Hlt. apply orb_true_iff in Hmono as [Hmono|Hmono].
  - apply Nat.leb_le in Hmono. lia.
  - by apply Z.leb_le.
Qed.

Lemma reported_percent_mono count count' total :
  (1 ≤ total ≤ 20)%nat → (count ≤ count')%nat → (count' ≤ total)%nat →
  ∃ z z', reported_percent count total = Some z ∧
          reported_percent count' total = Some z' ∧ (z ≤ z')%Z.
Proof.
  intros Htotal Hle Hcount'. induction Hle as [|m Hle IH].
  - destruct (reported_percent_range count total) as (z & _ & Hz & _); [done..|].
    exists z, z. repeat split; done || lia.
  - destruct IH as (z & zm & Hz & Hzm & Hzle); [lia|].
    destruct (reported_percent_range m total) as (z1 & z2 & Hz1 & Hz2 & _ & _ & _ & Hstep);
      [done|lia|].
    rewrite Hzm in Hz1. injection Hz1 as <-.
    replace (m + 1)%nat with (S m) in Hz2 by lia.
    exists z, z2. specialize (Hstep ltac:(lia)). repeat split; done || lia.
Qed.

(** X14: in a report on at most 20 articles every percentage of the
    breakdown prints a number between 0.0 and 100.0; it prints 0.0 for an
    empty bucket only and 100.0 only for a bucket that holds every article;
    and of two buckets the bigger one never prints the smaller
    percentage. *)
Theorem breakdown_percent_range polarity an company_name lines :
  (length (news_articles an) ≤ 20)%nat →
  generate_summary polarity an company_name = Returns (Report lines) →
  let shown count x :=
    PositiveArticles count x ∈ lines ∨ NegativeArticles count x ∈ lines ∨
    NeutralArticles count x ∈ lines in
  (∀ count x, shown count x →
     ∃ z, fixed 1 x = Some z ∧ (0 ≤ z ≤ 1000)%Z ∧
          (z = 0%Z ↔ count = 0%nat) ∧
          (z = 1000%Z ↔ count = length (news_articles an))) ∧
  (∀ count x count' x' z z',
     shown count x → shown count' x' → (count ≤ count')%nat →
     fixed 1 x = Some z → fixed 1 x' = Some z' → (z ≤ z')%Z).
Proof.
  intros Hcap Hgen shown.
  destruct (report_shape _ _ _ _ Hgen)
    as (closes & market & Hpos & Hdata & Hmarket & ->).
  set (c := count_sentiment polarity (news_articles an) (mkCounts 0 0 0)) in *.
  set (total := length (news_articles an)) in *.
  pose proof (count_sentiment_total polarity (news_articles an) (mkCounts 0 0 0))
    as Hsum.
  simpl in Hsum. fold c total in Hsum.
  assert (∀ count x, shown count x →
            (count ≤ total)%nat ∧ reported_percent count total = fixed 1 x)
    as Hshown.
  { intros count x Hs.
    destruct (fixed_lines_elem company_name (ticker an) (news_articles an) c
                (float_of_int (positive_count c) / float_of_int total * 100)%float
                (float_of_int (negative_count c) / float_of_int total * 100)%float
                (float_of_int (neutral_count c) / float_of_int total * 100)%float
                closes market Hmarket) as (Hp & Hn & Hu & _ & _).
    cbv zeta in Hp, Hn, Hu. unfold reported_percent.
    rewrite percent_returns by lia.
    destruct Hs as [Hs|[Hs|Hs]];
      [apply Hp in Hs as [-> ->]|apply Hn in Hs as [-> ->]
      |apply Hu in Hs as [-> ->]]; split; done || lia. }
  split.
  - intros count x [Hle Hrep]%Hshown.
    destruct (reported_percent_range count total) as (z & _ & Hz & _ & H1 & H2 & H3 & _);
      [lia|done|].
    exists z. rewrite <- Hrep. done.
  - intros count x count' x' z z' [Hle Hrep]%Hshown [Hle' Hrep']%Hshown Hcc Hz Hz'.
    destruct (reported_percent_mono count count' total) as (w & w' & Hw & Hw' & Hww);
      [lia|done|done|].
    rewrite Hrep, Hz in Hw. rewrite Hrep', Hz' in Hw'.
    injection Hw as <-. injection Hw' as <-. done.
Qed.

Lemma breakdown_percent_range_witness :
  let an := Sample.tcs_seven in
  let lines :=
    Sample.lines_of (generate_summary Sample.word_polarity an "TCS") in
  (length (news_articles an) ≤ 20)%nat ∧
  generate_summary Sample.word_polarity an "TCS" = Returns (Report lines) ∧
  ∃ z, fixed 1 0x1.c924924924924p+5 = Some z ∧ (0 ≤ z ≤ 1000)%Z.
Proof.
  intros an lines.
  assert (length (news_articles an) ≤ 20)%nat as H1 by (vm_compute; lia).
  assert (generate_summary Sample.word_polarity an "TCS" = Returns (Report lines))
    as H2 by (vm_compute; reflexivity).
  split; [exact H1|]. split; [exact H2|].
  destruct (breakdown_percent_range Sample.word_polarity an "TCS" lines H1 H2)
    as [Hrange _].
  destruct (Hrange 4%nat 0x1.c924924924924p+5%float) as (z & Hz & Hb & _).
  { left. apply list_elem_of_In. vm_compute. do 4 right. by left. }
  exists z. split; [exact Hz|exact Hb].
Defined.

(** ** The analysis as a whole *)

